(** * SideCar: the TrackMaintainer algorithm and the Threading primitives

    A shallow embedding of

    - [Algorithms/TrackMaintainer/TrackMaintainer.cc]: the track database
      ([trackDatabase_], a [std::map] from track number to the vector of the
      messages received for it), the wall-clock/message-clock offset
      ([epoch_]), [processInput], [updateDatabase], [checkDatabase], [reset];
    - [Threading/Threading.h]: the comparison operators of [Mutex].

    C++ [double]s are IEEE binary64 numbers: they are modelled by Rocq's
    primitive [float]s, which are the same numbers with the same operations.
    [Track::Ref] is a [boost::shared_ptr<Track>]: messages live in a heap and
    the database holds their addresses, so that what [setFlags] changes, and
    what it leaves alone, is visible in the model. *)

From Stdlib Require Import ZArith Floats Uint63 String Lia.
From stdpp Require Import base list sorting.

Local Open Scope Z_scope.

(** ** Messages/Track.h *)

(** Modelled from the spec: [Messages/Track.h] is not among the sources. The
    flags are the ones the first [switch] of [checkDatabase] names (the spec's
    "new", "corrected", "promoted" and "dropping" among them). *)

Inductive Flags : Set :=
  | kDropping | kNew | kPromoted | kNeedsPrediction
  | kNeedsCorrection | kPredicted | kCorrected.

(** Modelled from the spec: the lifecycle state of [Messages/Track.h],
    "tentative" or "confirmed", as the second [switch] names it. *)
Inductive Type_ : Set := kTentative | kConfirmed.

#[global] Instance Flags_eq_dec : EqDecision Flags.
Proof. solve_decision. Defined.

#[global] Instance Type_eq_dec : EqDecision Type_.
Proof. solve_decision. Defined.

(** Modelled from the spec: what the algorithm reads from a [Track] message
    of [Messages/Track.h]: the producer's name, the key, the flags, the state
    and the event time. *)
Record Track : Set := mkTrack {
  getProducer : string;
  getTrackNumber : Z;
  getFlags : Flags;
  getType : Type_;
  getExtractionTime : float
}.

Definition withProducer (p : string) (t : Track) : Track :=
  mkTrack p (getTrackNumber t) (getFlags t) (getType t) (getExtractionTime t).

Definition withFlags (f : Flags) (t : Track) : Track :=
  mkTrack (getProducer t) (getTrackNumber t) f (getType t) (getExtractionTime t).

(** ** The track database: [std::map<int, TrackMsgVector>]

    [TrackMaintainer.h], which declares [Mapping] and [TrackMsgVector], is not
    among the sources; the algorithm uses [Mapping] as a [std::map] keyed by
    the track number ([find], [insert] of a [value_type], [begin], [end],
    [erase] of an iterator that leaves the other iterators valid) and
    [TrackMsgVector] as a vector of [Track::Ref] ([push_back], [back],
    [size]).

    A [std::map] is traversed in ascending key order; it is kept here as the
    ascending sequence of its entries. A [Track::Ref] is a heap address. An
    iterator designates a node of the map, here by the node's key; [None] is
    [end()]. *)

Abbreviation Ref := nat (only parsing).
Abbreviation TrackMsgVector := (list nat) (only parsing).
Abbreviation Mapping := (list (Z * list nat)) (only parsing).
Abbreviation iterator := (option Z) (only parsing).

Module Map.

Definition begin (m : Mapping) : iterator :=
  match m with
  | [] => None
  | (k, _) :: _ => Some k
  end.

Fixpoint find (m : Mapping) (k : Z) : iterator :=
  match m with
  | [] => None
  | (k', _) :: m' => if decide (k' = k) then Some k else find m' k
  end.

(** [it->second]: [None] when the iterator designates no node of [m]. *)
Fixpoint second (m : Mapping) (k : Z) : option TrackMsgVector :=
  match m with
  | [] => None
  | (k', v) :: m' => if decide (k' = k) then Some v else second m' k
  end.

(** [++it]: the node after [k]'s; [None] when [k] designates no node of [m]
    (incrementing an invalidated iterator is undefined). *)
Fixpoint next (m : Mapping) (k : Z) : option iterator :=
  match m with
  | [] => None
  | (k', _) :: m' => if decide (k' = k) then Some (begin m') else next m' k
  end.

(** [m.insert(value_type(k, v))]: no effect when [k] is already a key. *)
Fixpoint insert (m : Mapping) (k : Z) (v : TrackMsgVector) : Mapping :=
  match m with
  | [] => [(k, v)]
  | (k', v') :: m' =>
      if decide (k < k') then (k, v) :: m
      else if decide (k' = k) then m
      else (k', v') :: insert m' k v
  end.

(** [m.erase(it)]. *)
Fixpoint erase (m : Mapping) (k : Z) : Mapping :=
  match m with
  | [] => []
  | (k', v) :: m' => if decide (k' = k) then m' else (k', v) :: erase m' k
  end.

(** [it->second.push_back(r)]. *)
Fixpoint push_back (m : Mapping) (k : Z) (r : Ref) : Mapping :=
  match m with
  | [] => []
  | (k', v) :: m' =>
      if decide (k' = k) then (k', v ++ [r]) :: m'
      else (k', v) :: push_back m' k r
  end.

End Map.

(** ** The algorithm's state and its surroundings *)

(** What the algorithm reads from outside itself: its two runtime parameters
    ([Parameter::PositiveIntValue], an [int] each),
    [RadarConfig::GetRotationDuration()], the successive readings of
    [Time::TimeStamp::Now().asDouble()], and the answer of the base class
    ([Super::reset()]). *)
Record Env : Type := mkEnv {
  hitsBeforePromote_ : Z;
  missesBeforeDrop_ : Z;
  GetRotationDuration : float;
  Now : nat -> float;
  Super_reset : bool
}.

(** The heap of [Track] objects, the two data members of [TrackMaintainer],
    the number of clock readings taken so far, the messages handed to
    [send], and the keys written by the [LOGDEBUG] at the top of the loop of
    [checkDatabase] ("track database entry"). *)
Record World : Type := mkWorld {
  heap : list Track;
  trackDatabase_ : list (Z * list nat);
  epoch_ : float;
  ticks : nat;
  sent : list Track;
  visited : list Z
}.

Definition initial : World := mkWorld [] [] 0%float 0 [] [].

(** Outcome of a call: a result, undefined behaviour (a dangling [Ref] or
    iterator, [back()] of an empty vector), or a loop cut short by its fuel. *)
Inductive Res (A : Type) : Type :=
  | Ok (a : A)
  | Undefined
  | OutOfFuel.
Arguments Ok {A} a.
Arguments Undefined {A}.
Arguments OutOfFuel {A}.

Definition M (A : Type) : Type := World -> Res (A * World).

Definition ret {A} (a : A) : M A := fun w => Ok (a, w).

Definition bind {A B} (c : M A) (k : A -> M B) : M B :=
  fun w =>
    match c w with
    | Ok (a, w') => k a w'
    | Undefined => Undefined
    | OutOfFuel => OutOfFuel
    end.

Declare Scope tm_scope.
Delimit Scope tm_scope with tm.
Notation "x <- c ;; k" := (bind c (fun x => k))
  (at level 100, c at next level, right associativity) : tm_scope.
Notation "c ;; k" := (bind c (fun _ => k))
  (at level 100, right associativity) : tm_scope.
Local Open Scope tm_scope.

Definition undefined {A} : M A := fun _ => Undefined.
Definition out_of_fuel {A} : M A := fun _ => OutOfFuel.

Definition defined {A} (o : option A) : M A :=
  match o with
  | Some a => ret a
  | None => undefined
  end.

(** *** The heap *)

Definition load (r : Ref) : M Track :=
  fun w => defined (heap w !! r) w.

Definition alloc (t : Track) : M Ref :=
  fun w =>
    Ok (length (heap w),
        mkWorld (heap w ++ [t]) (trackDatabase_ w) (epoch_ w) (ticks w)
                (sent w) (visited w)).

Definition store (r : Ref) (t : Track) : M unit :=
  fun w =>
    if decide (r < length (heap w))%nat then
      Ok (tt, mkWorld (<[r := t]> (heap w)) (trackDatabase_ w) (epoch_ w)
                      (ticks w) (sent w) (visited w))
    else Undefined.

(** Modelled from the spec: [Track::Make(producer, copy)] of
    [Messages/Track.h] allocates a new message under the producer's name that
    carries the payload of [copy] (a report delivers the key and the latest
    payload of its entity). *)
Definition Track_Make (producer : string) (copy : Ref) : M Ref :=
  t <- load copy ;; alloc (withProducer producer t).

Definition Track_setFlags (r : Ref) (f : Flags) : M unit :=
  t <- load r ;; store r (withFlags f t).

Definition Track_getFlags (r : Ref) : M Flags :=
  t <- load r ;; ret (getFlags t).

Definition Track_getType (r : Ref) : M Type_ :=
  t <- load r ;; ret (getType t).

Definition Track_getTrackNumber (r : Ref) : M Z :=
  t <- load r ;; ret (getTrackNumber t).

Definition Track_getExtractionTime (r : Ref) : M float :=
  t <- load r ;; ret (getExtractionTime t).

(** *** The data members, the clock, the output channel and the log *)

Definition get_db : M Mapping := fun w => Ok (trackDatabase_ w, w).

Definition set_db (m : Mapping) : M unit :=
  fun w => Ok (tt, mkWorld (heap w) m (epoch_ w) (ticks w) (sent w) (visited w)).

Definition get_epoch : M float := fun w => Ok (epoch_ w, w).

Definition set_epoch (e : float) : M unit :=
  fun w =>
    Ok (tt, mkWorld (heap w) (trackDatabase_ w) e (ticks w) (sent w) (visited w)).

Definition TimeStamp_Now (env : Env) : M float :=
  fun w =>
    Ok (Now env (ticks w),
        mkWorld (heap w) (trackDatabase_ w) (epoch_ w) (S (ticks w)) (sent w)
                (visited w)).

Definition send (r : Ref) : M unit :=
  t <- load r ;;
  fun w =>
    Ok (tt, mkWorld (heap w) (trackDatabase_ w) (epoch_ w) (ticks w)
                    (sent w ++ [t]) (visited w)).

Definition log_entry (k : Z) : M unit :=
  fun w =>
    Ok (tt, mkWorld (heap w) (trackDatabase_ w) (epoch_ w) (ticks w) (sent w)
                    (visited w ++ [k])).

(** ** TrackMaintainer.cc *)

(** The conversion of an [int] to [size_t] that [tracks.size() >= int]
    performs, and of an [int] to [double] that [double * int] performs. *)
Definition to_size_t (v : Z) : Z := v mod 2 ^ 64.

Definition double_of_int (v : Z) : float :=
  if decide (v < 0) then PrimFloat.opp (PrimFloat.of_uint63 (Uint63.of_Z (- v)))
  else PrimFloat.of_uint63 (Uint63.of_Z v).

Definition reset (env : Env) : M bool :=
  set_db [] ;;
  ret (Super_reset env).

Definition updateDatabase (env : Env) (msg : Ref) : M unit :=
  k <- Track_getTrackNumber msg ;;
  db <- get_db ;;
  it <- match Map.find db k with
        | None =>
            k' <- Track_getTrackNumber msg ;;
            set_db (Map.insert db k' []) ;;
            ret (Some k')
        | Some k' => ret (Some k')
        end ;;
  db <- get_db ;;
  match it with
  | None => undefined
  | Some k' =>
      defined (Map.second db k') ;;
      set_db (Map.push_back db k' msg)
  end ;;
  now <- TimeStamp_Now env ;;
  et <- Track_getExtractionTime msg ;;
  set_epoch (now - et)%float.

Definition processInput (env : Env) (msg : Ref) : M bool :=
  f <- Track_getFlags msg ;;
  (if decide (f = kNew) then updateDatabase env msg
   else
     f' <- Track_getFlags msg ;;
     if decide (f' = kCorrected) then updateDatabase env msg else ret tt) ;;
  ret true.

(** "Check to see if track is promotable": the report, if one is made. *)
Definition checkPromotable (env : Env) (tracks : TrackMsgVector) (track : Ref)
    : M (option Ref) :=
  ty <- Track_getType track ;;
  if decide (ty = kTentative) then
    if decide (to_size_t (hitsBeforePromote_ env) <= Z.of_nat (length tracks))
    then
      report <- Track_Make "TrackMaintainer" track ;;
      Track_setFlags report kPromoted ;;
      ret (Some report)
    else ret None
  else ret None.

(** "Check to see if track should be dropped": the report to send and the
    iterator to go on from. [erase(it++)] steps the iterator first and erases
    the node it left; the other branch only steps. *)
Definition checkDropped (env : Env) (dropLimit : float) (k : Z) (track : Ref)
    (report : option Ref) : M (option Ref * iterator) :=
  now <- TimeStamp_Now env ;;
  epoch <- get_epoch ;;
  et <- Track_getExtractionTime track ;;
  if PrimFloat.ltb dropLimit (now - (epoch + et)) then
    report' <- Track_Make "TrackMaintainer" track ;;
    Track_setFlags report' kDropping ;;
    db <- get_db ;;
    it' <- defined (Map.next db k) ;;
    set_db (Map.erase db k) ;;
    ret (Some report', it')
  else
    db <- get_db ;;
    it' <- defined (Map.next db k) ;;
    ret (report, it').

(** "If we created a report above, send it out." The two [switch] statements
    that follow in the source only build a log line. *)
Definition sendReport (report : option Ref) : M unit :=
  match report with
  | Some r => send r
  | None => ret tt
  end.

(** One turn of the [while] loop of [checkDatabase], at the node [k]; the
    result is the iterator the next turn starts from. *)
Definition checkEntry (env : Env) (dropLimit : float) (k : Z) : M iterator :=
  log_entry k ;;
  db <- get_db ;;
  tracks <- defined (Map.second db k) ;;
  track <- defined (last tracks) ;;
  report <- checkPromotable env tracks track ;;
  step <- checkDropped env dropLimit k track report ;;
  sendReport (fst step) ;;
  ret (snd step).

Fixpoint checkLoop (env : Env) (dropLimit : float) (fuel : nat)
    (it : iterator) {struct fuel} : M unit :=
  match it with
  | None => ret tt
  | Some k =>
      match fuel with
      | O => out_of_fuel
      | S fuel' =>
          it' <- checkEntry env dropLimit k ;;
          checkLoop env dropLimit fuel' it'
      end
  end.

Definition checkDatabase (env : Env) (fuel : nat) : M unit :=
  let dropLimit :=
    (GetRotationDuration env * double_of_int (missesBeforeDrop_ env))%float in
  db <- get_db ;;
  checkLoop env dropLimit fuel (Map.begin db).

(** The alarm handler; the loop of [checkDatabase] is given as many turns as
    the database has entries ([checkDatabase_run] shows that is enough). *)
Definition processAlarm (env : Env) : M unit :=
  db <- get_db ;;
  checkDatabase env (length db).

(** ** What one pass decides for an entry

    The conditions of [checkDatabase], as functions of what the pass reads:
    the entry's vector, its latest message, the offset and the clock. *)

Definition latest (h : list Track) (tracks : TrackMsgVector) : option Track :=
  match last tracks with
  | Some r => h !! r
  | None => None
  end.

Definition dropLimit (env : Env) : float :=
  (GetRotationDuration env * double_of_int (missesBeforeDrop_ env))%float.

Definition promotable (env : Env) (tracks : TrackMsgVector) (t : Track) : bool :=
  bool_decide (getType t = kTentative)
  && bool_decide (to_size_t (hitsBeforePromote_ env) <= Z.of_nat (length tracks)).

Definition expired (env : Env) (epoch now : float) (t : Track) : bool :=
  PrimFloat.ltb (dropLimit env) (now - (epoch + getExtractionTime t)).

Definition report (f : Flags) (t : Track) : Track :=
  withFlags f (withProducer "TrackMaintainer" t).

Definition reports_of (env : Env) (epoch now : float)
    (tracks : TrackMsgVector) (t : Track) : list Track :=
  if expired env epoch now t then [report kDropping t]
  else if promotable env tracks t then [report kPromoted t]
  else [].

Definition allocs_of (env : Env) (epoch now : float)
    (tracks : TrackMsgVector) (t : Track) : list Track :=
  (if promotable env tracks t then [report kPromoted t] else [])
  ++ (if expired env epoch now t then [report kDropping t] else []).

(** [Sweep env h epoch n m kept out]: a pass over the entries [m], the first
    of them judged at the [n]-th clock reading, keeps [kept] and sends [out]. *)
Inductive Sweep (env : Env) (h : list Track) (epoch : float) :
    nat -> Mapping -> Mapping -> list Track -> Prop :=
  | Sweep_end n : Sweep env h epoch n [] [] []
  | Sweep_entry n k tracks t m kept out :
      latest h tracks = Some t ->
      Sweep env h epoch (S n) m kept out ->
      Sweep env h epoch n ((k, tracks) :: m)
        (if expired env epoch (Now env n) t then kept else (k, tracks) :: kept)
        (reports_of env epoch (Now env n) tracks t ++ out).

(** The database is well formed when its keys ascend, no vector is empty, and
    every address in the vector of [k] holds a message numbered [k]. *)
Definition entry_ok (h : list Track) (e : Z * list nat) : Prop :=
  e.2 <> [] /\
  Forall (fun r => exists t, h !! r = Some t /\ getTrackNumber t = e.1) e.2.

Definition wf (w : World) : Prop :=
  StronglySorted Z.lt (trackDatabase_ w).*1 /\
  Forall (entry_ok (heap w)) (trackDatabase_ w).

(** ** The algorithm at work

    The hosting stage delivers messages, fires the alarm and restarts the
    algorithm; a delivered message is a new object of the heap. *)

Inductive Call : Type :=
  | Deliver (m : Track)
  | Alarm
  | Reset.

Definition perform (env : Env) (c : Call) : M (option bool) :=
  match c with
  | Deliver m =>
      msg <- alloc m ;;
      b <- processInput env msg ;;
      ret (Some b)
  | Alarm => processAlarm env ;; ret None
  | Reset => b <- reset env ;; ret (Some b)
  end.

Fixpoint run (env : Env) (cs : list Call) : M (list (option bool)) :=
  match cs with
  | [] => ret []
  | c :: cs' =>
      b <- perform env c ;;
      bs <- run env cs' ;;
      ret (b :: bs)
  end.

(** The reports of a pass that bear the key [k]. *)
Definition reports_for (k : Z) (out : list Track) : list Track :=
  filter (fun r => getTrackNumber r = k) out.

(** [processInput] folds a message into the history when its flags are
    [kNew] or [kCorrected]. *)
Definition accepted (m : Track) : bool :=
  bool_decide (getFlags m = kNew) || bool_decide (getFlags m = kCorrected).

(** The history of [k]: empty when the database has no entry for it. *)
Definition history (db : Mapping) (k : Z) : TrackMsgVector :=
  default [] (Map.second db k).

(** The database once [updateDatabase] has folded the message at [msg],
    numbered [k], into it. *)
Definition folded (db : Mapping) (k : Z) (msg : Ref) : Mapping :=
  Map.push_back
    (match Map.find db k with
     | None => Map.insert db k []
     | Some _ => db
     end) k msg.

(** What a pass over a database whose clock stands still sends for the
    entries it keeps: the promotion reports, again. *)
Definition promotions (env : Env) (h : list Track) (db : Mapping) : list Track :=
  flat_map
    (fun e => match latest h e.2 with
              | Some t => if promotable env e.2 t then [report kPromoted t] else []
              | None => []
              end)
    db.

(** Two worlds agree when they differ at most in the offset, and in it only
    while the database is empty. *)
Definition agree (w1 w2 : World) : Prop :=
  heap w1 = heap w2 /\ trackDatabase_ w1 = trackDatabase_ w2
  /\ ticks w1 = ticks w2 /\ sent w1 = sent w2 /\ visited w1 = visited w2
  /\ (trackDatabase_ w1 = [] \/ epoch_ w1 = epoch_ w2).

(** An entry is recent at the clock reading [c] when its latest message is
    not older than the drop limit allows. *)
Definition recent (env : Env) (h : list Track) (e c : float)
    (en : Z * list nat) : Prop :=
  exists t, latest h en.2 = Some t /\ expired env e c t = false.

(** A call that takes no message in: the offset is none of its business. *)
Definition quiet (c : Call) : bool :=
  match c with
  | Deliver m => negb (accepted m)
  | Alarm | Reset => true
  end.

(** ** Threading.h: [Mutex]

    A [Mutex] is neither copied nor assigned; an object is known by its
    address, and [operator==] and [operator!=] compare [this] with the
    address of [rhs]. *)

Module Threading.

Record pthread_mutex_t : Set := mk_pthread_mutex {
  kind : Z;
  owner : option nat
}.

Record Mutex : Set := mkMutex { mutex_ : pthread_mutex_t }.

(** [bool operator==(const Mutex& rhs) const { return this == &rhs; }] *)
Definition Mutex_eq (this rhs : nat) : bool := bool_decide (this = rhs).

(** [bool operator!=(const Mutex& rhs) const { return this != &rhs; }] *)
Definition Mutex_ne (this rhs : nat) : bool := bool_decide (this <> rhs).

(** Comparison of what two objects of a store hold, for contrast. *)
Definition same_value (store : list Mutex) (a b : nat) : Prop :=
  is_Some (store !! a) /\ store !! a = store !! b.

End Threading.

(** ** A scenario: track 42 and track 7

    The promotion threshold is 3 hits, a track is dropped after 3 rotations of
    4 seconds, and the clock stands at 100 seconds. Track 42 is reported three
    times at message time 100; track 7 once, at message time 50. *)

Definition env42 : Env := mkEnv 3 3 4%float (fun _ => 100%float) true.

(** The same surroundings with a promotion threshold of one hit. *)
Definition env1 : Env := mkEnv 1 3 4%float (fun _ => 100%float) true.

Definition plot (k : Z) (f : Flags) (et : float) : Track :=
  mkTrack "ABTracker" k f kTentative et.

Definition world42 : World :=
  mkWorld [plot 42 kNew 100; plot 42 kCorrected 100; plot 42 kCorrected 100]
          [(42, [0; 1; 2]%nat)] 0%float 3 [] [].

Definition world7 : World :=
  mkWorld [plot 7 kNew 50; plot 42 kNew 100; plot 42 kCorrected 100;
           plot 42 kCorrected 100]
          [(7, [0%nat]); (42, [1; 2; 3]%nat)] 0%float 4 [] [].

(** ** More of TrackMaintainer.cc, and what its properties are stated with *)

(** [shutdown], given the answer of the base class ([Super::shutdown()]). *)
Definition shutdown (super_shutdown : bool) : M bool :=
  set_db [] ;;
  ret super_shutdown.

(** What a call returns to the hosting stage. *)
Definition answer (env : Env) (c : Call) : option bool :=
  match c with
  | Deliver _ => Some true
  | Alarm => None
  | Reset => Some (Super_reset env)
  end.

(** The dropping reports among the reports of a pass. *)
Definition droppings (out : list Track) : list Track :=
  filter (fun r => getFlags r = kDropping) out.

(** The addresses, from [base] on, of the messages of [ms] that
    [processInput] takes in for track [k], in the order of [ms]. *)
Fixpoint arrivals (k : Z) (base : nat) (ms : list Track) : list nat :=
  match ms with
  | [] => []
  | m :: ms' =>
      (if accepted m && bool_decide (getTrackNumber m = k) then [base] else [])
      ++ arrivals k (S base) ms'
  end.

(** Three more scenes: a threshold of five hits; a message for track 7
    that has arrived while the database is empty; a message whose extraction
    time is not a number. *)
Definition env5 : Env := mkEnv 5 3 4%float (fun _ => 100%float) true.

Definition world0 : World :=
  mkWorld [plot 7 kNew 50] [] 0%float 0 [] [].


(** * Proofs *)

(** ** The node an iterator designates

    The entries before it are the ones the pass has kept; its key is not
    among theirs. *)

(** Walk down the entries already passed: the head is not the node sought. *)
Ltac past_prefix pre Hk :=
  let IH := fresh "IH" in
  let Hne := fresh "Hne" in
  induction pre as [|[? ?] pre IH]; intros Hk; simpl;
  [ by rewrite decide_True
  | rewrite fmap_cons, not_elem_of_cons in Hk; destruct Hk as [Hne Hk];
    rewrite decide_False by (simpl in Hne; congruence);
    try rewrite IH by done; auto ].

Lemma second_middle (pre post : list (Z * list nat)) k v :
  k ∉ pre.*1 -> Map.second (pre ++ (k, v) :: post) k = Some v.
Proof. past_prefix pre Hk. Qed.

Lemma next_middle (pre post : list (Z * list nat)) k v :
  k ∉ pre.*1 -> Map.next (pre ++ (k, v) :: post) k = Some (Map.begin post).
Proof. past_prefix pre Hk. Qed.

Lemma erase_middle (pre post : list (Z * list nat)) k v :
  k ∉ pre.*1 -> Map.erase (pre ++ (k, v) :: post) k = pre ++ post.
Proof. past_prefix pre Hk. Qed.

Lemma make_report_run {A} (f : Flags) (r : nat) (t : Track) (k : nat -> M A)
    h db e n s v :
  h !! r = Some t ->
  (r' <- Track_Make "TrackMaintainer" r ;; Track_setFlags r' f ;; k r')
    (mkWorld h db e n s v)
  = k (length h) (mkWorld (h ++ [report f t]) db e n s v).
Proof.
  intros Hr.
  unfold Track_Make, Track_setFlags, bind, load, alloc, store; simpl.
  rewrite Hr; simpl.
  rewrite list_lookup_middle by done; simpl.
  rewrite decide_True by (rewrite length_app; simpl; lia).
  rewrite insert_app_r_alt by lia. rewrite Nat.sub_diag. reflexivity.
Qed.

Lemma send_run (r : nat) (t : Track) h db e n s v :
  h !! r = Some t ->
  send r (mkWorld h db e n s v) = Ok (tt, mkWorld h db e n (s ++ [t]) v).
Proof. intros Hr. unfold send, bind, load; simpl. by rewrite Hr. Qed.


Lemma checkPromotable_run env tracks r t h db e n s v :
  h !! r = Some t ->
  checkPromotable env tracks r (mkWorld h db e n s v)
  = if promotable env tracks t
    then Ok (Some (length h), mkWorld (h ++ [report kPromoted t]) db e n s v)
    else Ok (None, mkWorld h db e n s v).
Proof.
  intros Hr. unfold checkPromotable, promotable.
  unfold bind at 1. unfold Track_getType, bind at 1, load; simpl.
  rewrite Hr; simpl.
  destruct (decide (getType t = kTentative)) as [Hty|Hty].
  - rewrite (bool_decide_eq_true_2 _ Hty); simpl.
    destruct (decide (to_size_t (hitsBeforePromote_ env) <= Z.of_nat (length tracks)))
      as [Hn|Hn].
    + rewrite (bool_decide_eq_true_2 _ Hn).
      by rewrite (make_report_run kPromoted r t (fun r' => ret (Some r'))).
    + by rewrite (bool_decide_eq_false_2 _ Hn).
  - by rewrite (bool_decide_eq_false_2 _ Hty).
Qed.

Lemma checkDropped_run env pre k tracks post r t ro h e n s v :
  k ∉ pre.*1 -> h !! r = Some t ->
  checkDropped env (dropLimit env) k r ro
    (mkWorld h (pre ++ (k, tracks) :: post) e n s v)
  = if expired env e (Now env n) t
    then Ok ((Some (length h), Map.begin post),
             mkWorld (h ++ [report kDropping t]) (pre ++ post) e (S n) s v)
    else Ok ((ro, Map.begin post),
             mkWorld h (pre ++ (k, tracks) :: post) e (S n) s v).
Proof.
  intros Hk Hr. unfold checkDropped, expired.
  unfold bind at 1. unfold TimeStamp_Now; simpl.
  unfold bind at 1. unfold get_epoch; simpl.
  unfold bind at 1. unfold Track_getExtractionTime, bind at 1, load; simpl.
  rewrite Hr; simpl.
  destruct (PrimFloat.ltb _ _).
  - rewrite (make_report_run kDropping r t
      (fun r' => db <- get_db ;; it' <- defined (Map.next db k) ;;
                 set_db (Map.erase db k) ;; ret (Some r', it'))) by done.
    unfold bind, get_db; simpl.
    rewrite next_middle by done; simpl.
    by rewrite erase_middle.
  - unfold bind, get_db; simpl.
    by rewrite next_middle.
Qed.

Lemma checkEntry_run env h pre k tracks post e n s v r t :
  k ∉ pre.*1 -> last tracks = Some r -> h !! r = Some t ->
  checkEntry env (dropLimit env) k (mkWorld h (pre ++ (k, tracks) :: post) e n s v)
  = Ok (Map.begin post,
        mkWorld (h ++ allocs_of env e (Now env n) tracks t)
                (if expired env e (Now env n) t then pre ++ post
                 else pre ++ (k, tracks) :: post)
                e (S n)
                (s ++ reports_of env e (Now env n) tracks t)
                (v ++ [k])).
Proof.
  intros Hk Hlast Hr.
  unfold checkEntry.
  unfold bind at 1. unfold log_entry.
  unfold bind at 1. unfold get_db; simpl.
  rewrite second_middle by done.
  unfold bind at 1; simpl.
  rewrite Hlast. unfold bind at 1; simpl.
  unfold bind at 1. rewrite (checkPromotable_run _ _ _ t) by done.
  unfold allocs_of, reports_of.
  destruct (promotable env tracks t).
  - unfold bind at 1.
    rewrite (checkDropped_run _ _ _ _ _ _ t) by (try done; by apply lookup_app_l_Some).
    destruct (expired env e (Now env n) t); simpl.
    + unfold bind. rewrite (send_run _ (report kDropping t)).
      * simpl. by rewrite <- app_assoc.
      * rewrite list_lookup_middle; [done|]. by rewrite length_app.
    + unfold bind. rewrite (send_run _ (report kPromoted t)).
      * simpl. by rewrite ?app_nil_r.
      * by rewrite list_lookup_middle.
  - unfold bind at 1.
    rewrite (checkDropped_run _ _ _ _ _ _ t) by done.
    destruct (expired env e (Now env n) t); simpl.
    + unfold bind. rewrite (send_run _ (report kDropping t)).
      * done.
      * by rewrite list_lookup_middle.
    + unfold bind; simpl. by rewrite ?app_nil_r.
Qed.

(** ** Running the loop

    The heap only grows during a pass, so what an address of the database
    holds can be read in the heap the pass started from. *)

Lemma latest_Some h tracks t :
  latest h tracks = Some t -> exists r, last tracks = Some r /\ h !! r = Some t.
Proof.
  unfold latest. destruct (last tracks) as [r|]; [|done]. eauto.
Qed.

Lemma latest_app h al tracks t :
  latest h tracks = Some t -> latest (h ++ al) tracks = Some t.
Proof.
  intros (r & Hl & Hr)%latest_Some. unfold latest. rewrite Hl.
  by apply lookup_app_l_Some.
Qed.

Lemma checkLoop_run env h e rest :
  forall pre al0 n s v fuel,
    NoDup (pre ++ rest).*1 ->
    Forall (fun en => is_Some (latest h en.2)) rest ->
    (length rest <= fuel)%nat ->
    exists kept out al,
      checkLoop env (dropLimit env) fuel (Map.begin rest)
        (mkWorld (h ++ al0) (pre ++ rest) e n s v)
      = Ok (tt, mkWorld (h ++ al) (pre ++ kept) e (n + length rest)
                        (s ++ out) (v ++ rest.*1))
      /\ Sweep env h e n rest kept out.
Proof.
  induction rest as [|[k tracks] rest IH]; intros pre al0 n s v fuel Hnd Hl Hf.
  - exists [], [], al0. split; [|constructor].
    rewrite !app_nil_r, Nat.add_0_r. by destruct fuel.
  - destruct fuel as [|fuel]; [simpl in Hf; lia|].
    apply Forall_cons in Hl as [[t Ht] Hl].
    destruct (latest_Some _ _ _ Ht) as (r & Hlast & Hr).
    assert (Hk : k ∉ pre.*1).
    { rewrite fmap_app, fmap_cons in Hnd. apply NoDup_app in Hnd as (_ & Hd & _).
      intros Hin. apply (Hd _ Hin). simpl. left. }
    simpl checkLoop. unfold bind at 1.
    rewrite (checkEntry_run _ _ _ _ _ _ _ _ _ _ r t) by (try done; by apply lookup_app_l_Some).
    rewrite <- app_assoc.
    pose proof (Sweep_entry env h e n k tracks t rest) as HS.
    destruct (expired env e (Now env n) t).
    + destruct (IH pre (al0 ++ allocs_of env e (Now env n) tracks t) (S n)
                  (s ++ reports_of env e (Now env n) tracks t) (v ++ [k]) fuel)
        as (kept & out & al & Hrun & Hsw).
      * rewrite fmap_app, fmap_cons in Hnd. rewrite fmap_app.
        apply NoDup_app in Hnd as (H1 & H2 & H3). apply NoDup_cons in H3 as [_ H3].
        apply NoDup_app. split_and!; [done| |done].
        intros x Hx Hx'. apply (H2 x Hx). by right.
      * done.
      * simpl in Hf. lia.
      * exists kept, (reports_of env e (Now env n) tracks t ++ out), al.
        split; [|by apply HS].
        rewrite Hrun. simpl. rewrite <- !app_assoc. simpl.
        by rewrite Nat.add_succ_r.
    + destruct (IH (pre ++ [(k, tracks)]) (al0 ++ allocs_of env e (Now env n) tracks t) (S n)
                  (s ++ reports_of env e (Now env n) tracks t) (v ++ [k]) fuel)
        as (kept & out & al & Hrun & Hsw).
      * by rewrite <- app_assoc.
      * done.
      * simpl in Hf. lia.
      * exists ((k, tracks) :: kept), (reports_of env e (Now env n) tracks t ++ out), al.
        split; [|by apply HS].
        rewrite <- app_assoc in Hrun. simpl in Hrun.
        rewrite Hrun. simpl. rewrite <- !app_assoc. simpl.
        by rewrite Nat.add_succ_r.
Qed.

(** ** Well-formed databases and what a pass leaves of them *)

Lemma ascending_NoDup (l : list Z) : StronglySorted Z.lt l -> NoDup l.
Proof.
  induction 1 as [|a l _ IH Hall]; constructor; [|done].
  intros Hin. rewrite Forall_forall in Hall. specialize (Hall a Hin). lia.
Qed.

Lemma ascending_sublist (l1 l2 : list Z) :
  sublist l1 l2 -> StronglySorted Z.lt l2 -> StronglySorted Z.lt l1.
Proof.
  induction 1 as [|x l1 l2 Hs IH|x l1 l2 Hs IH]; intros Hl.
  - constructor.
  - apply StronglySorted_inv in Hl as [Hl Hx]. constructor; [by apply IH|].
    rewrite Forall_forall in Hx |- *. intros y Hy. apply Hx.
    by eapply elem_of_sublist.
  - apply StronglySorted_inv in Hl as [Hl _]. by apply IH.
Qed.

Lemma entry_ok_latest h e :
  entry_ok h e -> exists t, latest h e.2 = Some t /\ getTrackNumber t = e.1.
Proof.
  intros [Hne Hall]. apply last_is_Some in Hne as [r Hr].
  rewrite Forall_forall in Hall.
  destruct (Hall r (last_Some_elem_of _ _ Hr)) as (t & Ht & Hk).
  exists t. split; [|done]. unfold latest. by rewrite Hr.
Qed.

Lemma entry_ok_app h al e : entry_ok h e -> entry_ok (h ++ al) e.
Proof.
  intros [Hne Hall]. split; [done|].
  eapply Forall_impl; [exact Hall|]. intros r (t & Ht & Hk).
  exists t. split; [by apply lookup_app_l_Some|done].
Qed.

Lemma second_Some_elem (m : list (Z * list nat)) k v :
  Map.second m k = Some v -> k ∈ m.*1.
Proof.
  induction m as [|[k' v'] m IH]; simpl; [done|].
  destruct (decide (k' = k)) as [->|]; [left|right; auto].
Qed.

Lemma second_None (m : list (Z * list nat)) k :
  k ∉ m.*1 -> Map.second m k = None.
Proof.
  intros Hk. destruct (Map.second m k) eqn:E; [|done].
  by apply second_Some_elem in E.
Qed.

Lemma second_lookup (m : list (Z * list nat)) i k v :
  NoDup m.*1 -> m !! i = Some (k, v) -> Map.second m k = Some v.
Proof.
  revert i. induction m as [|[k' v'] m IH]; intros i Hnd Hi; [done|].
  simpl in Hnd. apply NoDup_cons in Hnd as [Hk' Hnd].
  destruct i as [|i]; simpl in *.
  - injection Hi as -> ->. by rewrite decide_True.
  - rewrite decide_False; [by eapply IH|].
    intros ->. apply Hk'. apply list_elem_of_fmap. exists (k, v).
    split; [done|]. by eapply list_elem_of_lookup_2.
Qed.

Lemma reports_of_same env e now tracks t :
  reports_for (getTrackNumber t) (reports_of env e now tracks t)
  = reports_of env e now tracks t.
Proof.
  unfold reports_for, reports_of.
  destruct (expired env e now t); [by rewrite filter_cons_True|].
  destruct (promotable env tracks t); [by rewrite filter_cons_True|done].
Qed.

Lemma reports_of_other env e now tracks t k :
  getTrackNumber t <> k -> reports_for k (reports_of env e now tracks t) = [].
Proof.
  intros Hk. unfold reports_for, reports_of.
  destruct (expired env e now t).
  - by rewrite filter_cons_False.
  - destruct (promotable env tracks t); [|done]. by rewrite filter_cons_False.
Qed.

Section SweepFacts.
Variables (env : Env) (h : list Track) (e : float).

Lemma Sweep_sublist n m kept out :
  Sweep env h e n m kept out -> sublist kept m.
Proof.
  induction 1 as [|n k tracks t m kept out Ht HS IH]; [constructor|].
  destruct (expired env e (Now env n) t); by constructor.
Qed.

Lemma Sweep_absent n m kept out k :
  Sweep env h e n m kept out -> Forall (entry_ok h) m -> k ∉ m.*1 ->
  reports_for k out = [] /\ Map.second kept k = None.
Proof.
  induction 1 as [|n k0 tracks t m kept out Ht HS IH]; intros Hok Hk; [done|].
  apply Forall_cons in Hok as [Hok0 Hok].
  rewrite fmap_cons, not_elem_of_cons in Hk. destruct Hk as [Hne Hk].
  destruct (IH Hok Hk) as [IH1 IH2].
  destruct (entry_ok_latest _ _ Hok0) as (t' & Ht' & Hnum).
  simpl in Ht', Hnum, Hne. rewrite Ht in Ht'. injection Ht' as <-.
  split.
  - unfold reports_for in *. rewrite filter_app, IH1, app_nil_r.
    apply reports_of_other. congruence.
  - destruct (expired env e (Now env n) t); [done|].
    simpl. by rewrite decide_False by congruence.
Qed.

Lemma Sweep_at n m kept out :
  Sweep env h e n m kept out ->
  forall i k tracks t,
    NoDup m.*1 -> Forall (entry_ok h) m ->
    m !! i = Some (k, tracks) -> latest h tracks = Some t ->
    reports_for k out = reports_of env e (Now env (n + i)) tracks t
    /\ Map.second kept k
       = if expired env e (Now env (n + i)) t then None else Some tracks.
Proof.
  induction 1 as [|n k0 tracks0 t0 m kept out Ht0 HS IH];
    intros i k tracks t Hnd Hok Hi Ht; [done|].
  apply Forall_cons in Hok as [Hok0 Hok].
  simpl in Hnd. apply NoDup_cons in Hnd as [Hk0 Hnd].
  destruct (entry_ok_latest _ _ Hok0) as (t' & Ht' & Hnum).
  simpl in Ht', Hnum. rewrite Ht0 in Ht'. injection Ht' as <-.
  destruct i as [|i]; simpl in Hi.
  - injection Hi as <- <-. rewrite Ht0 in Ht. injection Ht as <-.
    rewrite Nat.add_0_r.
    destruct (Sweep_absent _ _ _ _ k0 HS Hok Hk0) as [A1 A2].
    split.
    + unfold reports_for in *. rewrite filter_app, A1, app_nil_r.
      pose proof (reports_of_same env e (Now env n) tracks0 t0) as Hs.
      rewrite Hnum in Hs. exact Hs.
    + destruct (expired env e (Now env n) t0); [done|].
      simpl. by rewrite decide_True.
  - assert (Hne : k0 <> k).
    { intros ->. apply Hk0. apply list_elem_of_fmap. exists (k, tracks).
      split; [done|]. by eapply list_elem_of_lookup_2. }
    destruct (IH i k tracks t Hnd Hok Hi Ht) as [B1 B2].
    rewrite Nat.add_succ_r. simpl in B1, B2.
    split.
    + unfold reports_for in *. rewrite filter_app, B1.
      fold (reports_for k (reports_of env e (Now env n) tracks0 t0)).
      rewrite reports_of_other by congruence. done.
    + destruct (expired env e (Now env n) t0); [done|].
      simpl. by rewrite decide_False.
Qed.

Lemma Sweep_kept_second n m kept out k v :
  Sweep env h e n m kept out -> NoDup m.*1 ->
  Map.second kept k = Some v -> Map.second m k = Some v.
Proof.
  induction 1 as [|n k0 tracks0 t0 m kept out Ht0 HS IH]; intros Hnd Hk; [done|].
  simpl in Hnd. apply NoDup_cons in Hnd as [Hk0 Hnd]. simpl.
  destruct (expired env e (Now env n) t0).
  - rewrite decide_False; [by apply IH|].
    intros ->. apply Hk0. apply second_Some_elem with v. by apply IH.
  - simpl in Hk. destruct (decide (k0 = k)); [done|by apply IH].
Qed.

Lemma Sweep_at_most_one n m kept out k :
  Sweep env h e n m kept out -> NoDup m.*1 -> Forall (entry_ok h) m ->
  (length (reports_for k out) <= 1)%nat.
Proof.
  intros HS Hnd Hok.
  destruct (decide (k ∈ m.*1)) as [Hin|Hnin].
  - apply list_elem_of_fmap in Hin as ([k' tracks] & Hk & Hin).
    simpl in Hk. subst k.
    apply list_elem_of_lookup_1 in Hin as [i Hi].
    assert (Hoki : entry_ok h (k', tracks)).
    { rewrite Forall_forall in Hok. apply Hok. by eapply list_elem_of_lookup_2. }
    destruct (entry_ok_latest _ _ Hoki) as (t & Ht & _). simpl in Ht.
    destruct (Sweep_at _ _ _ _ HS i k' tracks t Hnd Hok Hi Ht) as [-> _].
    unfold reports_of. simpl.
    destruct (expired _ _ _ _); [simpl; lia|].
    destruct (promotable _ _ _); simpl; lia.
  - destruct (Sweep_absent _ _ _ _ k HS Hok Hnin) as [-> _]. simpl. lia.
Qed.
End SweepFacts.

Lemma wf_NoDup w : wf w -> NoDup (trackDatabase_ w).*1.
Proof. intros [Hs _]. by apply ascending_NoDup. Qed.

(** [checkDatabase] returns, whatever fuel at least the size of the database
    it is given, and what it leaves is described by [Sweep]. *)
Lemma checkDatabase_run env fuel w :
  wf w -> (length (trackDatabase_ w) <= fuel)%nat ->
  exists kept out al,
    checkDatabase env fuel w
    = Ok (tt, mkWorld (heap w ++ al) kept (epoch_ w)
                      (ticks w + length (trackDatabase_ w))
                      (sent w ++ out) (visited w ++ (trackDatabase_ w).*1))
    /\ Sweep env (heap w) (epoch_ w) (ticks w) (trackDatabase_ w) kept out.
Proof.
  intros Hwf Hfuel. destruct w as [h db e n s v]; simpl in *.
  destruct (checkLoop_run env h e db [] [] n s v fuel) as (kept & out & al & Hrun & HS).
  - by apply (wf_NoDup _ Hwf).
  - destruct Hwf as [_ Hok]. simpl in Hok.
    eapply Forall_impl; [exact Hok|]. intros en Hen.
    destruct (entry_ok_latest _ _ Hen) as (t & -> & _). by eexists.
  - done.
  - exists kept, out, al. split; [|done].
    unfold checkDatabase, bind, get_db; simpl.
    rewrite app_nil_r in Hrun. exact Hrun.
Qed.

Lemma Sweep_wf env h e n db kept out al e' n' s s' v v' :
  Sweep env h e n db kept out ->
  wf (mkWorld h db e n s v) -> wf (mkWorld (h ++ al) kept e' n' s' v').
Proof.
  intros HS [Hs Hok]; simpl in *. apply Sweep_sublist in HS.
  split; simpl.
  - eapply ascending_sublist; [|exact Hs]. by apply fmap_sublist.
  - rewrite Forall_forall in Hok |- *. intros en Hen.
    apply entry_ok_app, Hok. by eapply elem_of_sublist.
Qed.

Lemma checkDatabase_wf env fuel w :
  wf w -> (length (trackDatabase_ w) <= fuel)%nat ->
  exists w', checkDatabase env fuel w = Ok (tt, w') /\ wf w'.
Proof.
  intros Hwf Hfuel.
  destruct (checkDatabase_run env fuel w Hwf Hfuel) as (kept & out & al & Hrun & HS).
  eexists. split; [exact Hrun|].
  destruct w as [h db e n s v]. by eapply Sweep_wf.
Qed.

(** *** The map operations of [updateDatabase] *)

Lemma find_Some (m : list (Z * list nat)) k k' :
  Map.find m k = Some k' -> k' = k /\ is_Some (Map.second m k).
Proof.
  induction m as [|[k0 v0] m IH]; simpl; [done|].
  destruct (decide (k0 = k)); [|done].
  intros [= <-]. split; [done|by eexists].
Qed.

Lemma find_None (m : list (Z * list nat)) k :
  Map.find m k = None -> Map.second m k = None.
Proof.
  induction m as [|[k0 v0] m IH]; simpl; [done|].
  by destruct (decide (k0 = k)).
Qed.

Lemma second_insert (m : list (Z * list nat)) k v :
  Map.find m k = None -> Map.second (Map.insert m k v) k = Some v.
Proof.
  induction m as [|[k0 v0] m IH]; simpl.
  - by rewrite decide_True.
  - destruct (decide (k0 = k)); [done|]. intros Hf.
    destruct (decide (k < k0)); simpl.
    + by rewrite decide_True.
    + rewrite decide_False by done. auto.
Qed.

Lemma second_push_back (m : list (Z * list nat)) k r v :
  Map.second m k = Some v -> Map.second (Map.push_back m k r) k = Some (v ++ [r]).
Proof.
  induction m as [|[k0 v0] m IH]; simpl; [done|].
  destruct (decide (k0 = k)); simpl.
  - intros [= ->]. by rewrite decide_True.
  - rewrite decide_False by done. auto.
Qed.

Lemma second_push_back_ne (m : list (Z * list nat)) k k' r :
  k' <> k -> Map.second (Map.push_back m k r) k' = Map.second m k'.
Proof.
  intros Hne. induction m as [|[k0 v0] m IH]; simpl; [done|].
  destruct (decide (k0 = k)) as [->|]; simpl.
  - by rewrite !decide_False by done.
  - by rewrite IH.
Qed.

Lemma second_insert_ne (m : list (Z * list nat)) k k' v :
  k' <> k -> Map.second (Map.insert m k v) k' = Map.second m k'.
Proof.
  intros Hne. induction m as [|[k0 v0] m IH]; simpl.
  - by rewrite decide_False by done.
  - destruct (decide (k < k0)); simpl.
    + by rewrite (decide_False (P := k = k')) by done.
    + destruct (decide (k0 = k)); [done|]. simpl. by rewrite IH.
Qed.

Lemma push_back_keys (m : list (Z * list nat)) k r :
  (Map.push_back m k r).*1 = m.*1.
Proof.
  induction m as [|[k0 v0] m IH]; csimpl; [done|].
  destruct (decide (k0 = k)); csimpl; [done|by rewrite IH].
Qed.

Lemma insert_keys_elem (m : list (Z * list nat)) k v x :
  x ∈ (Map.insert m k v).*1 -> x = k \/ x ∈ m.*1.
Proof.
  induction m as [|[k0 v0] m IH]; csimpl.
  - rewrite list_elem_of_singleton. auto.
  - destruct (decide (k < k0)); csimpl.
    + rewrite elem_of_cons. intros [->|H]; auto.
    + destruct (decide (k0 = k)); csimpl; [auto|].
      rewrite !elem_of_cons. intros [->|H]; [auto|].
      destruct (IH H); auto.
Qed.

Lemma insert_ascending (m : list (Z * list nat)) k v :
  StronglySorted Z.lt m.*1 -> StronglySorted Z.lt (Map.insert m k v).*1.
Proof.
  induction m as [|[k0 v0] m IH]; csimpl; intros Hs.
  - repeat constructor.
  - destruct (decide (k < k0)); csimpl.
    + constructor; [done|]. apply StronglySorted_inv in Hs as [_ Hall].
      constructor; [done|]. eapply Forall_impl; [exact Hall|]. csimpl. lia.
    + destruct (decide (k0 = k)); csimpl; [done|].
      apply StronglySorted_inv in Hs as [Hs Hall]. constructor; [auto|].
      rewrite Forall_forall in Hall |- *. intros x Hx.
      apply insert_keys_elem in Hx as [->|Hx]; [lia|auto].
Qed.

(** *** [updateDatabase] and [processInput] *)

Lemma updateDatabase_run env msg m h db e n s v :
  h !! msg = Some m ->
  updateDatabase env msg (mkWorld h db e n s v)
  = Ok (tt, mkWorld h (folded db (getTrackNumber m) msg)
                    (Now env n - getExtractionTime m)%float (S n) s v).
Proof.
  intros Hm. unfold updateDatabase, folded.
  unfold bind at 1. unfold Track_getTrackNumber, bind at 1, load; simpl.
  rewrite Hm; simpl.
  unfold bind at 1. unfold get_db; simpl.
  destruct (Map.find db (getTrackNumber m)) as [k'|] eqn:Hf.
  - destruct (find_Some _ _ _ Hf) as [-> [tr Htr]].
    unfold get_db, TimeStamp_Now, Track_getExtractionTime, load, set_db, set_epoch.
    unfold bind; simpl.
    rewrite Htr; simpl. by rewrite Hm.
  - unfold get_db, TimeStamp_Now, Track_getExtractionTime,
      Track_getTrackNumber, load, set_db, set_epoch.
    unfold bind; simpl.
    rewrite Hm; simpl. rewrite second_insert by done; simpl. by rewrite Hm.
Qed.

Lemma processInput_run env msg m h db e n s v :
  h !! msg = Some m ->
  processInput env msg (mkWorld h db e n s v)
  = if accepted m
    then Ok (true, mkWorld h (folded db (getTrackNumber m) msg)
                           (Now env n - getExtractionTime m)%float (S n) s v)
    else Ok (true, mkWorld h db e n s v).
Proof.
  intros Hm. unfold processInput, accepted.
  unfold bind at 1. unfold Track_getFlags at 1, bind at 1, load; simpl.
  rewrite Hm; simpl.
  destruct (decide (getFlags m = kNew)) as [Hn|Hn].
  - rewrite (bool_decide_eq_true_2 _ Hn); simpl.
    unfold bind. by rewrite (updateDatabase_run _ _ m).
  - rewrite (bool_decide_eq_false_2 _ Hn); simpl.
    unfold bind at 1. unfold bind at 1. unfold Track_getFlags, bind at 1, load; simpl.
    rewrite Hm; simpl.
    destruct (decide (getFlags m = kCorrected)) as [Hc|Hc].
    + rewrite (bool_decide_eq_true_2 _ Hc).
      by rewrite (updateDatabase_run _ _ m).
    + by rewrite (bool_decide_eq_false_2 _ Hc).
Qed.

Lemma second_folded db k msg :
  Map.second (folded db k msg) k = Some (history db k ++ [msg]).
Proof.
  unfold folded, history.
  destruct (Map.find db k) as [k'|] eqn:Hf.
  - destruct (find_Some _ _ _ Hf) as [_ [tr Htr]].
    rewrite Htr; simpl. by apply second_push_back.
  - rewrite (find_None _ _ Hf); simpl.
    apply (second_push_back _ _ _ []). by apply second_insert.
Qed.

Lemma second_folded_ne db k k' msg :
  k' <> k -> Map.second (folded db k msg) k' = Map.second db k'.
Proof.
  intros Hne. unfold folded. rewrite second_push_back_ne by done.
  destruct (Map.find db k); [done|]. by apply second_insert_ne.
Qed.

Lemma second_elem (m : list (Z * list nat)) k v :
  Map.second m k = Some v -> (k, v) ∈ m.
Proof.
  induction m as [|[k0 v0] m IH]; simpl; [done|].
  destruct (decide (k0 = k)) as [->|].
  - intros [= ->]. left.
  - intros H. right. auto.
Qed.

Lemma folded_ascending db k msg :
  StronglySorted Z.lt db.*1 -> StronglySorted Z.lt (folded db k msg).*1.
Proof.
  intros Hs. unfold folded. rewrite push_back_keys.
  destruct (Map.find db k); [done|]. by apply insert_ascending.
Qed.

Lemma folded_ok h db msg m :
  StronglySorted Z.lt db.*1 -> Forall (entry_ok h) db -> h !! msg = Some m ->
  Forall (entry_ok h) (folded db (getTrackNumber m) msg).
Proof.
  intros Hs Hok Hm. rewrite Forall_forall in Hok |- *.
  intros [k' v'] Hen.
  apply list_elem_of_lookup_1 in Hen as [i Hi].
  apply second_lookup in Hi; [|by apply ascending_NoDup, folded_ascending].
  destruct (decide (k' = getTrackNumber m)) as [->|Hne].
  - rewrite second_folded in Hi. injection Hi as <-.
    split; simpl; [by destruct (history db (getTrackNumber m))|].
    apply Forall_app. split; [|repeat constructor; by exists m].
    unfold history. destruct (Map.second db (getTrackNumber m)) as [tr|] eqn:Htr;
      simpl; [|done].
    apply second_elem in Htr. by destruct (Hok _ Htr).
  - rewrite second_folded_ne in Hi by done.
    apply Hok. by apply second_elem.
Qed.

Lemma processInput_wf env msg m w :
  wf w -> heap w !! msg = Some m ->
  exists w', processInput env msg w = Ok (true, w') /\ wf w'
             /\ heap w' = heap w /\ sent w' = sent w.
Proof.
  intros [Hs Hok] Hm. destruct w as [h db e n s v]; simpl in *.
  rewrite (processInput_run _ _ m) by done.
  destruct (accepted m); eexists; (split; [done|]); simpl.
  - split; [|done]. split; simpl; [by apply folded_ascending|by apply folded_ok].
  - done.
Qed.

Lemma wf_alloc h db e n s v m e' n' s' v' :
  wf (mkWorld h db e n s v) -> wf (mkWorld (h ++ [m]) db e' n' s' v').
Proof.
  intros [Hs Hok]; split; simpl in *; [done|].
  eapply Forall_impl; [exact Hok|]. intros en. apply entry_ok_app.
Qed.

Lemma processAlarm_eq env w :
  processAlarm env w = checkDatabase env (length (trackDatabase_ w)) w.
Proof. reflexivity. Qed.

(** Every call of the hosting stage returns and keeps the database well
    formed. *)
Lemma perform_wf env c w :
  wf w -> exists b w', perform env c w = Ok (b, w') /\ wf w'.
Proof.
  intros Hwf. destruct c as [m| |]; simpl.
  - destruct w as [h db e n s v].
    destruct (processInput_wf env (length h) m (mkWorld (h ++ [m]) db e n s v))
      as (w' & Hrun & Hwf' & _).
    + by eapply wf_alloc.
    + by apply list_lookup_middle.
    + exists (Some true), w'. split; [|done].
      unfold bind, alloc; simpl. by rewrite Hrun.
  - destruct (checkDatabase_wf env (length (trackDatabase_ w)) w Hwf (le_n _))
      as (w' & Hrun & Hwf').
    exists None, w'. split; [|done].
    unfold bind at 1. by rewrite processAlarm_eq, Hrun.
  - destruct w as [h db e n s v]. eexists _, _. split; [reflexivity|].
    split; simpl; constructor.
Qed.

Lemma run_wf env cs : forall w,
  wf w -> exists bs w', run env cs w = Ok (bs, w') /\ wf w'.
Proof.
  induction cs as [|c cs IH]; intros w Hwf; simpl.
  - by exists [], w.
  - destruct (perform_wf env c w Hwf) as (b & w1 & Hrun & Hwf1).
    destruct (IH w1 Hwf1) as (bs & w2 & Hrun2 & Hwf2).
    exists (b :: bs), w2. split; [|done].
    unfold bind. by rewrite Hrun, Hrun2.
Qed.

(** [reset] stores nothing into [epoch_]. *)
Lemma reset_keeps_epoch env w :
  exists w', reset env w = Ok (Super_reset env, w') /\ epoch_ w' = epoch_ w.
Proof. by eexists. Qed.

Lemma initial_wf : wf initial.
Proof. split; simpl; constructor. Qed.

(** Whatever the hosting stage calls, starting from the initial world, every
    call returns and the world reached is well formed. *)
Lemma reachable_wf env cs :
  exists bs w, run env cs initial = Ok (bs, w) /\ wf w.
Proof. apply run_wf, initial_wf. Qed.

(** ** The scenario

    Both worlds are reached from the initial one by deliveries alone. *)

Lemma world42_wf : wf world42.
Proof.
  split; simpl.
  - repeat constructor.
  - repeat constructor; try done; simpl; eexists; (split; [reflexivity|done]).
Qed.

Lemma world7_wf : wf world7.
Proof.
  split; simpl.
  - repeat constructor.
  - repeat constructor; try done; simpl; eexists; (split; [reflexivity|done]).
Qed.

Example world42_reached :
  run env42 [Deliver (plot 42 kNew 100); Deliver (plot 42 kCorrected 100);
             Deliver (plot 42 kCorrected 100)] initial
  = Ok ([Some true; Some true; Some true], world42).
Proof. vm_compute. reflexivity. Qed.

Example world7_reached :
  run env42 [Deliver (plot 7 kNew 50); Deliver (plot 42 kNew 100);
             Deliver (plot 42 kCorrected 100); Deliver (plot 42 kCorrected 100)]
      initial
  = Ok ([Some true; Some true; Some true; Some true], world7).
Proof. vm_compute. reflexivity. Qed.

Example both_conditions_at_once :
  exists w',
    checkDatabase env1 2 world7 = Ok (tt, w')
    /\ promotable env1 [0%nat] (plot 7 kNew 50) = true
    /\ expired env1 (epoch_ world7) (Now env1 (ticks world7)) (plot 7 kNew 50) = true
    /\ sent w' = [report kDropping (plot 7 kNew 50);
                  report kPromoted (plot 42 kCorrected 100)]
    /\ trackDatabase_ w' = [(42, [1; 2; 3]%nat)].
Proof.
  eexists. split; [vm_compute; reflexivity|].
  split; [reflexivity|]. split; [reflexivity|]. split; reflexivity.
Qed.

(** ** Facts used by the claims *)

Lemma second_None_inv (m : list (Z * list nat)) k :
  Map.second m k = None -> k ∉ m.*1.
Proof.
  induction m as [|[k0 v0] m IH]; csimpl.
  - intros _. apply not_elem_of_nil.
  - destruct (decide (k0 = k)); [done|].
    intros H. rewrite not_elem_of_cons. split; [congruence|auto].
Qed.

Lemma accepted_iff m :
  accepted m = true <-> getFlags m = kNew \/ getFlags m = kCorrected.
Proof.
  unfold accepted. rewrite orb_true_iff, !bool_decide_eq_true. done.
Qed.

Section StandingClock.
Variables (env : Env) (h : list Track) (e c : float).
Hypothesis Hclock : forall i, Now env i = c.

Lemma Sweep_kept_recent n m kept out :
  Sweep env h e n m kept out -> Forall (recent env h e c) kept.
Proof.
  induction 1 as [|n k tracks t m kept out Ht HS IH]; [constructor|].
  rewrite Hclock. destruct (expired env e c t) eqn:Hexp; [done|].
  constructor; [|done]. by exists t.
Qed.

Lemma Sweep_still n m kept out :
  Sweep env h e n m kept out -> Forall (recent env h e c) m ->
  kept = m /\ out = promotions env h m.
Proof.
  induction 1 as [|n k tracks t m kept out Ht HS IH]; intros Hm; [done|].
  apply Forall_cons in Hm as [(t' & Ht' & Hexp) Hm]. simpl in Ht'.
  rewrite Ht in Ht'. injection Ht' as <-.
  destruct (IH Hm) as [-> ->].
  unfold reports_of, promotions. rewrite Hclock, Hexp. simpl. by rewrite Ht.
Qed.
End StandingClock.

Lemma promotions_flags env h db :
  Forall (fun r => getFlags r = kPromoted) (promotions env h db).
Proof.
  unfold promotions. apply Forall_flat_map, Forall_forall. intros en _.
  destruct (latest h en.2); [|done].
  destruct (promotable env en.2 t); by repeat constructor.
Qed.

Lemma deliver_run env m h db e n s v :
  perform env (Deliver m) (mkWorld h db e n s v)
  = if accepted m
    then Ok (Some true,
             mkWorld (h ++ [m]) (folded db (getTrackNumber m) (length h))
                     (Now env n - getExtractionTime m)%float (S n) s v)
    else Ok (Some true, mkWorld (h ++ [m]) db e n s v).
Proof.
  simpl. unfold bind, alloc; simpl.
  rewrite (processInput_run _ _ m) by (by apply list_lookup_middle).
  by destruct (accepted m).
Qed.

Lemma agree_refl w : agree w w.
Proof. repeat split; auto. Qed.

Lemma perform_agree env c w1 w2 :
  wf w1 -> agree w1 w2 ->
  exists b w1' w2',
    perform env c w1 = Ok (b, w1') /\ perform env c w2 = Ok (b, w2')
    /\ wf w1' /\ agree w1' w2'.
Proof.
  intros Hwf Hag.
  destruct (perform_wf env c w1 Hwf) as (b & w1' & Hrun & Hwf').
  exists b, w1'.
  destruct w1 as [h db e1 n s v], w2 as [h2 db2 e2 n2 s2 v2].
  destruct Hag as (Hh & Hdb & Hn & Hs & Hv & He); simpl in *. subst h2 db2 n2 s2 v2.
  destruct He as [->| ->].
  - destruct c as [m| |].
    + rewrite deliver_run in Hrun. rewrite !deliver_run.
      destruct (accepted m); injection Hrun as <- <-; eexists;
        (split; [done|]); (split; [done|]); (split; [done|]);
        repeat split; simpl; auto.
    + simpl in Hrun |- *. injection Hrun as <- <-. eexists.
      split; [done|]. split; [done|]. split; [done|]. repeat split; simpl; auto.
    + simpl in Hrun |- *. injection Hrun as <- <-. eexists.
      split; [done|]. split; [done|]. split; [done|]. repeat split; simpl; auto.
  - exists w1'. split; [done|]. split; [done|]. split; [done|]. apply agree_refl.
Qed.

Lemma run_agree env cs : forall w1 w2,
  wf w1 -> agree w1 w2 ->
  exists bs w1' w2',
    run env cs w1 = Ok (bs, w1') /\ run env cs w2 = Ok (bs, w2')
    /\ agree w1' w2'.
Proof.
  induction cs as [|c cs IH]; intros w1 w2 Hwf Hag; simpl.
  - by exists [], w1, w2.
  - destruct (perform_agree env c w1 w2 Hwf Hag) as (b & u1 & u2 & H1 & H2 & Hwf' & Hag').
    destruct (IH u1 u2 Hwf' Hag') as (bs & v1 & v2 & R1 & R2 & Hag'').
    exists (b :: bs), v1, v2. unfold bind. by rewrite H1, H2, R1, R2.
Qed.

Lemma quiet_perform env c w :
  wf w -> quiet c = true ->
  exists b w', perform env c w = Ok (b, w') /\ wf w' /\ epoch_ w' = epoch_ w.
Proof.
  intros Hwf Hq.
  destruct (perform_wf env c w Hwf) as (b & w' & Hrun & Hwf').
  exists b, w'. split; [done|]. split; [done|].
  destruct c as [m| |].
  - destruct w as [h db e n s v]. rewrite deliver_run in Hrun.
    simpl in Hq. apply negb_true_iff in Hq. rewrite Hq in Hrun.
    by injection Hrun as <- <-.
  - destruct (checkDatabase_run env (length (trackDatabase_ w)) w Hwf (le_n _))
      as (kept & out & al & Hcd & _).
    simpl in Hrun. unfold bind at 1 in Hrun.
    rewrite processAlarm_eq, Hcd in Hrun. by injection Hrun as <- <-.
  - destruct w as [h db e n s v]. by injection Hrun as <- <-.
Qed.

Lemma quiet_run env cs : forall w,
  wf w -> forallb quiet cs = true ->
  exists bs w', run env cs w = Ok (bs, w') /\ epoch_ w' = epoch_ w.
Proof.
  induction cs as [|c cs IH]; intros w Hwf Hq; simpl.
  - by exists [], w.
  - simpl in Hq. apply andb_true_iff in Hq as [Hc Hq].
    destruct (quiet_perform env c w Hwf Hc) as (b & w1 & Hrun & Hwf1 & He1).
    destruct (IH w1 Hwf1 Hq) as (bs & w2 & Hrun2 & He2).
    exists (b :: bs), w2. unfold bind. rewrite Hrun, Hrun2.
    split; [done|congruence].
Qed.

(** * The claims *)

(** C1, as the code has it: for an entry whose latest message is tentative
    and whose vector has reached [hitsBeforePromote_], one pass of
    [checkDatabase] sends exactly one report bearing the key. It is the
    promoted report when the entry is not dropped in the same pass (the
    dropping report otherwise), and the pass leaves the entry as it found it:
    its latest message is the same object, still tentative. The promotion is
    carried by the report alone. *)
Theorem C1_promotion_report env fuel w i k tracks t :
  wf w -> (length (trackDatabase_ w) <= fuel)%nat ->
  trackDatabase_ w !! i = Some (k, tracks) ->
  latest (heap w) tracks = Some t ->
  getType t = kTentative ->
  0 < hitsBeforePromote_ env <= 2147483647 ->
  hitsBeforePromote_ env <= Z.of_nat (length tracks) ->
  exists w' out,
    checkDatabase env fuel w = Ok (tt, w')
    /\ sent w' = sent w ++ out
    /\ if expired env (epoch_ w) (Now env (ticks w + i)) t
       then reports_for k out = [report kDropping t]
       else reports_for k out = [report kPromoted t]
            /\ Map.second (trackDatabase_ w') k = Some tracks
            /\ latest (heap w') tracks = Some t.
Proof.
  intros Hwf Hfuel Hi Ht Hty Hrange Hhits.
  destruct (checkDatabase_run env fuel w Hwf Hfuel) as (kept & out & al & Hrun & HS).
  eexists _, out. split; [exact Hrun|]. split; [done|].
  destruct (Sweep_at _ _ _ _ _ _ _ HS i k tracks t (wf_NoDup _ Hwf) (proj2 Hwf) Hi Ht)
    as [Hout Hkept].
  assert (Hp : promotable env tracks t = true).
  { unfold promotable. rewrite (bool_decide_eq_true_2 _ Hty); simpl.
    apply bool_decide_eq_true_2. unfold to_size_t.
    rewrite Z.mod_small by lia. done. }
  unfold reports_of in Hout. rewrite Hp in Hout. simpl.
  destruct (expired _ _ _ _); [done|].
  split; [done|]. split; [done|]. by apply latest_app.
Qed.

Lemma C1_witness :
  exists w' out,
    checkDatabase env42 1 world42 = Ok (tt, w')
    /\ sent w' = sent world42 ++ out
    /\ if expired env42 (epoch_ world42) (Now env42 (ticks world42 + 0))
                  (plot 42 kCorrected 100)
       then reports_for 42 out = [report kDropping (plot 42 kCorrected 100)]
       else reports_for 42 out = [report kPromoted (plot 42 kCorrected 100)]
            /\ Map.second (trackDatabase_ w') 42 = Some [0; 1; 2]%nat
            /\ latest (heap w') [0; 1; 2]%nat = Some (plot 42 kCorrected 100).
Proof.
  apply (C1_promotion_report env42 1 world42 0 42 [0; 1; 2]%nat
           (plot 42 kCorrected 100)).
  - exact world42_wf.
  - simpl; lia.
  - reflexivity.
  - reflexivity.
  - reflexivity.
  - simpl; lia.
  - simpl; lia.
Defined.

(** C1, as stated, fails. Track 42 is tentative with three messages and the
    threshold is three: the pass sends the promoted report, and the stored
    state of track 42 is tentative afterwards, not confirmed. Track 7 is
    tentative with one message, the threshold being one, and overdue: the
    one report of the pass for it is the dropping one, and it is erased. *)
Lemma C1_counterexample :
  (trackDatabase_ world42 = [(42, [0; 1; 2]%nat)]
   /\ latest (heap world42) [0; 1; 2]%nat = Some (plot 42 kCorrected 100)
   /\ hitsBeforePromote_ env42 = 3
   /\ exists w',
        checkDatabase env42 1 world42 = Ok (tt, w')
        /\ sent w' = [report kPromoted (plot 42 kCorrected 100)]
        /\ trackDatabase_ w' = [(42, [0; 1; 2]%nat)]
        /\ exists t, latest (heap w') [0; 1; 2]%nat = Some t
                     /\ getType t = kTentative /\ getType t <> kConfirmed)
  /\ (trackDatabase_ world7 !! 0%nat = Some (7, [0%nat])
      /\ latest (heap world7) [0%nat] = Some (plot 7 kNew 50)
      /\ hitsBeforePromote_ env1 = 1
      /\ exists w',
           checkDatabase env1 2 world7 = Ok (tt, w')
           /\ reports_for 7 (sent w') = [report kDropping (plot 7 kNew 50)]
           /\ reports_for 7 (sent w') <> [report kPromoted (plot 7 kNew 50)]
           /\ Map.second (trackDatabase_ w') 7 = None).
Proof.
  split.
  - split; [reflexivity|]. split; [reflexivity|]. split; [reflexivity|].
    eexists. split; [vm_compute; reflexivity|].
    split; [reflexivity|]. split; [reflexivity|].
    eexists. split; [reflexivity|]. split; [reflexivity|discriminate].
  - split; [reflexivity|]. split; [reflexivity|]. split; [reflexivity|].
    eexists. split; [vm_compute; reflexivity|].
    split; [reflexivity|]. split; [discriminate|reflexivity].
Qed.

(** C2, as the code has it: of two passes of [checkDatabase] run under one
    clock reading, with nothing delivered in between, the second drops
    nothing and sends no dropping report; what it sends is the promoted
    report, once more, of every entry it finds tentative with enough hits. *)
Theorem C2_second_pass env fuel w :
  wf w -> (length (trackDatabase_ w) <= fuel)%nat ->
  (forall i j, Now env i = Now env j) ->
  exists w1 w2,
    checkDatabase env fuel w = Ok (tt, w1)
    /\ checkDatabase env fuel w1 = Ok (tt, w2)
    /\ trackDatabase_ w2 = trackDatabase_ w1
    /\ sent w2 = sent w1 ++ promotions env (heap w1) (trackDatabase_ w1)
    /\ Forall (fun r => getFlags r = kPromoted)
              (promotions env (heap w1) (trackDatabase_ w1)).
Proof.
  intros Hwf Hfuel Hclock.
  destruct (checkDatabase_run env fuel w Hwf Hfuel) as (kept & out & al & Hrun & HS).
  set (w1 := mkWorld _ _ _ _ _ _) in Hrun.
  assert (Hwf1 : wf w1) by (destruct w; by eapply Sweep_wf).
  assert (Hfuel1 : (length (trackDatabase_ w1) <= fuel)%nat).
  { simpl. apply Sweep_sublist, sublist_length in HS. lia. }
  destruct (checkDatabase_run env fuel w1 Hwf1 Hfuel1)
    as (kept' & out' & al' & Hrun' & HS').
  assert (Hc : forall i, Now env i = Now env 0%nat) by (intros; apply Hclock).
  destruct (Sweep_still env _ _ _ Hc _ _ _ _ HS') as [-> ->].
  { eapply Forall_impl; [exact (Sweep_kept_recent env _ _ _ Hc _ _ _ _ HS)|].
    intros en (t & Ht & Hexp). exists t. split; [by apply latest_app|done]. }
  eexists w1, _. split; [done|]. split; [exact Hrun'|].
  split; [done|]. split; [done|]. apply promotions_flags.
Qed.

Lemma C2_witness :
  exists w1 w2,
    checkDatabase env42 2 world7 = Ok (tt, w1)
    /\ checkDatabase env42 2 w1 = Ok (tt, w2)
    /\ trackDatabase_ w2 = trackDatabase_ w1
    /\ sent w2 = sent w1 ++ promotions env42 (heap w1) (trackDatabase_ w1)
    /\ Forall (fun r => getFlags r = kPromoted)
              (promotions env42 (heap w1) (trackDatabase_ w1)).
Proof.
  apply (C2_second_pass env42 2 world7).
  - exact world7_wf.
  - simpl; lia.
  - intros i j. reflexivity.
Defined.

(** C2, as stated, fails: the second of two passes over track 42, with no
    message in between and the clock unchanged, sends the promoted report
    again. *)
Lemma C2_counterexample :
  exists w1 w2,
    checkDatabase env42 1 world42 = Ok (tt, w1)
    /\ checkDatabase env42 1 w1 = Ok (tt, w2)
    /\ sent w2 = sent w1 ++ [report kPromoted (plot 42 kCorrected 100)]
    /\ sent w2 <> sent w1.
Proof.
  eexists _, _. split; [vm_compute; reflexivity|].
  split; [vm_compute; reflexivity|]. split; [reflexivity|]. discriminate.
Qed.

(** C3: a pass sends at most one report per key, and an entry that meets
    both the promotion and the drop condition gets the dropping report only
    and is erased. *)
Theorem C3_one_report_drop_first env fuel w :
  wf w -> (length (trackDatabase_ w) <= fuel)%nat ->
  exists w' out,
    checkDatabase env fuel w = Ok (tt, w')
    /\ sent w' = sent w ++ out
    /\ (forall k, (length (reports_for k out) <= 1)%nat)
    /\ (forall i k tracks t,
          trackDatabase_ w !! i = Some (k, tracks) ->
          latest (heap w) tracks = Some t ->
          promotable env tracks t = true ->
          expired env (epoch_ w) (Now env (ticks w + i)) t = true ->
          reports_for k out = [report kDropping t]
          /\ Map.second (trackDatabase_ w') k = None).
Proof.
  intros Hwf Hfuel.
  destruct (checkDatabase_run env fuel w Hwf Hfuel) as (kept & out & al & Hrun & HS).
  eexists _, out. split; [exact Hrun|]. split; [done|].
  pose proof (wf_NoDup _ Hwf) as Hnd. destruct Hwf as [_ Hok].
  split.
  - intros k. by eapply Sweep_at_most_one.
  - intros i k tracks t Hi Ht _ Hexp. simpl.
    destruct (Sweep_at _ _ _ _ _ _ _ HS i k tracks t Hnd Hok Hi Ht) as [-> ->].
    unfold reports_of. by rewrite Hexp.
Qed.

Lemma C3_witness :
  exists w' out,
    checkDatabase env1 2 world7 = Ok (tt, w')
    /\ sent w' = sent world7 ++ out
    /\ (forall k, (length (reports_for k out) <= 1)%nat)
    /\ (forall i k tracks t,
          trackDatabase_ world7 !! i = Some (k, tracks) ->
          latest (heap world7) tracks = Some t ->
          promotable env1 tracks t = true ->
          expired env1 (epoch_ world7) (Now env1 (ticks world7 + i)) t = true ->
          reports_for k out = [report kDropping t]
          /\ Map.second (trackDatabase_ w') k = None).
Proof.
  apply (C3_one_report_drop_first env1 2 world7).
  - exact world7_wf.
  - simpl; lia.
Defined.

(** C4: [processInput] returns [true]; when the flags of the message are
    [kNew] or [kCorrected] it does what [updateDatabase] does, and the message
    ends the history of its track; with any other flags it leaves the world,
    database and offset included, as it was. *)
Theorem C4_processInput_filter env w msg m :
  heap w !! msg = Some m ->
  exists w',
    processInput env msg w = Ok (true, w')
    /\ (getFlags m = kNew \/ getFlags m = kCorrected ->
        updateDatabase env msg w = Ok (tt, w')
        /\ Map.second (trackDatabase_ w') (getTrackNumber m)
           = Some (history (trackDatabase_ w) (getTrackNumber m) ++ [msg]))
    /\ (getFlags m <> kNew -> getFlags m <> kCorrected -> w' = w).
Proof.
  intros Hm. destruct w as [h db e n s v]; simpl in *.
  rewrite (processInput_run _ _ m) by done.
  destruct (accepted m) eqn:Hacc; eexists; (split; [reflexivity|]).
  - split.
    + intros _. rewrite (updateDatabase_run _ _ m) by done.
      split; [done|]. simpl. apply second_folded.
    + apply accepted_iff in Hacc. intros H1 H2. by destruct Hacc.
  - split; [|done]. intros Hf. apply accepted_iff in Hf. congruence.
Qed.

Lemma C4_witness :
  exists w',
    processInput env42 0%nat world42 = Ok (true, w')
    /\ (getFlags (plot 42 kNew 100) = kNew
        \/ getFlags (plot 42 kNew 100) = kCorrected ->
        updateDatabase env42 0%nat world42 = Ok (tt, w')
        /\ Map.second (trackDatabase_ w') (getTrackNumber (plot 42 kNew 100))
           = Some (history (trackDatabase_ world42)
                     (getTrackNumber (plot 42 kNew 100)) ++ [0%nat]))
    /\ (getFlags (plot 42 kNew 100) <> kNew ->
        getFlags (plot 42 kNew 100) <> kCorrected -> w' = world42).
Proof.
  apply (C4_processInput_filter env42 world42 0%nat (plot 42 kNew 100)).
  reflexivity.
Defined.

(** C5: after [processInput] has taken a message in, whatever its track
    number, the offset is the clock reading minus the extraction time of that
    message; and it stays so through the passes, restarts and ignored
    messages that follow, until the next message is taken in. *)
Theorem C5_epoch_latest_observation env w msg m :
  heap w !! msg = Some m ->
  getFlags m = kNew \/ getFlags m = kCorrected ->
  exists w',
    processInput env msg w = Ok (true, w')
    /\ epoch_ w' = (Now env (ticks w) - getExtractionTime m)%float
    /\ (wf w ->
        forall cs, forallb quiet cs = true ->
          exists bs w'',
            run env cs w' = Ok (bs, w'')
            /\ epoch_ w'' = (Now env (ticks w) - getExtractionTime m)%float).
Proof.
  intros Hm Hf. apply accepted_iff in Hf.
  destruct w as [h db e n s v]; simpl in *.
  rewrite (processInput_run _ _ m), Hf by done.
  eexists. split; [done|]. split; [done|].
  intros Hwf cs Hq.
  destruct (processInput_wf env msg m _ Hwf Hm) as (w1 & Hrun & Hwf1 & _).
  rewrite (processInput_run _ _ m), Hf in Hrun by done. injection Hrun as <-.
  destruct (quiet_run env cs _ Hwf1 Hq) as (bs & w2 & Hrun2 & He).
  by exists bs, w2.
Qed.

Lemma C5_witness :
  exists w',
    processInput env42 1%nat world7 = Ok (true, w')
    /\ epoch_ w'
       = (Now env42 (ticks world7) - getExtractionTime (plot 42 kNew 100))%float
    /\ (wf world7 ->
        forall cs, forallb quiet cs = true ->
          exists bs w'',
            run env42 cs w' = Ok (bs, w'')
            /\ epoch_ w''
               = (Now env42 (ticks world7)
                  - getExtractionTime (plot 42 kNew 100))%float).
Proof.
  apply (C5_epoch_latest_observation env42 world7 1%nat (plot 42 kNew 100)).
  - reflexivity.
  - left. reflexivity.
Defined.

(** C6: the drop limit is the rotation duration times [missesBeforeDrop_].
    An entry whose latest message is older than that, by the clock reading
    taken for it and the offset, gets one dropping report and is erased, and
    no later pass reports on its key; an entry that is not older stays. *)
Theorem C6_eviction env fuel w i k tracks t :
  wf w -> (length (trackDatabase_ w) <= fuel)%nat ->
  trackDatabase_ w !! i = Some (k, tracks) ->
  latest (heap w) tracks = Some t ->
  exists w' out,
    checkDatabase env fuel w = Ok (tt, w')
    /\ sent w' = sent w ++ out
    /\ if PrimFloat.ltb
            (GetRotationDuration env * double_of_int (missesBeforeDrop_ env))
            (Now env (ticks w + i) - (epoch_ w + getExtractionTime t))
       then reports_for k out = [report kDropping t]
            /\ Map.second (trackDatabase_ w') k = None
            /\ (forall env' fuel',
                  (length (trackDatabase_ w') <= fuel')%nat ->
                  exists w'' out',
                    checkDatabase env' fuel' w' = Ok (tt, w'')
                    /\ sent w'' = sent w' ++ out'
                    /\ reports_for k out' = [])
       else Map.second (trackDatabase_ w') k = Some tracks.
Proof.
  intros Hwf Hfuel Hi Ht.
  destruct (checkDatabase_run env fuel w Hwf Hfuel) as (kept & out & al & Hrun & HS).
  eexists _, out. split; [exact Hrun|]. split; [done|].
  pose proof (wf_NoDup _ Hwf) as Hnd.
  destruct (Sweep_at _ _ _ _ _ _ _ HS i k tracks t Hnd (proj2 Hwf) Hi Ht) as [Hout Hkept].
  unfold reports_of, expired, dropLimit in Hout, Hkept. simpl.
  destruct (PrimFloat.ltb _ _); [|done].
  split; [done|]. split; [done|].
  intros env' fuel' Hfuel'.
  set (w' := mkWorld _ _ _ _ _ _) in *.
  assert (Hwf' : wf w') by (destruct w; by eapply Sweep_wf).
  destruct (checkDatabase_run env' fuel' w' Hwf' Hfuel')
    as (kept' & out' & al' & Hrun' & HS').
  eexists _, out'. split; [exact Hrun'|]. split; [done|].
  eapply Sweep_absent; [exact HS'|exact (proj2 Hwf')|].
  by apply second_None_inv.
Qed.

Lemma C6_witness :
  exists w' out,
    checkDatabase env42 2 world7 = Ok (tt, w')
    /\ sent w' = sent world7 ++ out
    /\ if PrimFloat.ltb
            (GetRotationDuration env42 * double_of_int (missesBeforeDrop_ env42))
            (Now env42 (ticks world7 + 0)
             - (epoch_ world7 + getExtractionTime (plot 7 kNew 50)))
       then reports_for 7 out = [report kDropping (plot 7 kNew 50)]
            /\ Map.second (trackDatabase_ w') 7 = None
            /\ (forall env' fuel',
                  (length (trackDatabase_ w') <= fuel')%nat ->
                  exists w'' out',
                    checkDatabase env' fuel' w' = Ok (tt, w'')
                    /\ sent w'' = sent w' ++ out'
                    /\ reports_for 7 out' = [])
       else Map.second (trackDatabase_ w') 7 = Some [0%nat].
Proof.
  apply (C6_eviction env42 2 world7 0 7 [0%nat] (plot 7 kNew 50)).
  - exact world7_wf.
  - simpl; lia.
  - reflexivity.
  - reflexivity.
Defined.

(** C7: [reset] empties the database, and what the algorithm does after it
    (what its calls return, what it sends, what it stores) is the same
    whatever database and offset it held before. *)
Theorem C7_reset_clears env h db e db' e' n s v cs :
  (exists w0, reset env (mkWorld h db e n s v) = Ok (Super_reset env, w0)
              /\ trackDatabase_ w0 = [])
  /\ exists bs w1 w2,
       (reset env ;; run env cs) (mkWorld h db e n s v) = Ok (bs, w1)
       /\ (reset env ;; run env cs) (mkWorld h db' e' n s v) = Ok (bs, w2)
       /\ heap w1 = heap w2
       /\ trackDatabase_ w1 = trackDatabase_ w2
       /\ sent w1 = sent w2
       /\ ticks w1 = ticks w2
       /\ visited w1 = visited w2.
Proof.
  split; [by eexists|].
  destruct (run_agree env cs (mkWorld h [] e n s v) (mkWorld h [] e' n s v))
    as (bs & w1 & w2 & H1 & H2 & Hag).
  - split; simpl; constructor.
  - repeat split; simpl; auto.
  - exists bs, w1, w2. destruct Hag as (? & ? & ? & ? & ? & _).
    by repeat split.
Qed.

(** C8: a pass visits the keys the database held when it started, each once
    and in order, whatever it erases on the way. *)
Theorem C8_traversal env fuel w :
  wf w -> (length (trackDatabase_ w) <= fuel)%nat ->
  exists w',
    checkDatabase env fuel w = Ok (tt, w')
    /\ visited w' = visited w ++ (trackDatabase_ w).*1
    /\ NoDup (trackDatabase_ w).*1.
Proof.
  intros Hwf Hfuel.
  destruct (checkDatabase_run env fuel w Hwf Hfuel) as (kept & out & al & Hrun & HS).
  eexists. split; [exact Hrun|]. split; [done|by apply wf_NoDup].
Qed.

Lemma C8_witness :
  exists w',
    checkDatabase env42 2 world7 = Ok (tt, w')
    /\ visited w' = visited world7 ++ (trackDatabase_ world7).*1
    /\ NoDup (trackDatabase_ world7).*1.
Proof.
  apply (C8_traversal env42 2 world7).
  - exact world7_wf.
  - simpl; lia.
Defined.

(** C9: [a == b] holds exactly when [a] and [b] are one object, [a != b] is
    its negation, and two objects that hold equal values are not equal. *)
Theorem C9_mutex_identity (a b : nat) :
  (Threading.Mutex_eq a b = true <-> a = b)
  /\ Threading.Mutex_ne a b = negb (Threading.Mutex_eq a b)
  /\ (forall store, Threading.same_value store a b -> a <> b ->
                    Threading.Mutex_eq a b = false)
  /\ exists store a' b',
       Threading.same_value store a' b' /\ Threading.Mutex_eq a' b' = false.
Proof.
  unfold Threading.Mutex_eq, Threading.Mutex_ne.
  split; [apply bool_decide_eq_true|].
  split; [apply bool_decide_not|].
  split; [intros store _ Hne; by apply bool_decide_eq_false|].
  set (m := Threading.mkMutex (Threading.mk_pthread_mutex 2 None)).
  exists [m; m], 0%nat, 1%nat. split; [|done].
  split; [by exists m|done].
Qed.

(** C10: a pass leaves the offset and every message of the heap as they
    were (reports are new objects), and an entry it keeps has the vector, the
    messages and the latest message it had before. *)
Theorem C10_pass_frame env fuel w :
  wf w -> (length (trackDatabase_ w) <= fuel)%nat ->
  exists w' al,
    checkDatabase env fuel w = Ok (tt, w')
    /\ epoch_ w' = epoch_ w
    /\ heap w' = heap w ++ al
    /\ forall k tracks,
         Map.second (trackDatabase_ w') k = Some tracks ->
         Map.second (trackDatabase_ w) k = Some tracks
         /\ Forall (fun r => heap w' !! r = heap w !! r) tracks
         /\ latest (heap w') tracks = latest (heap w) tracks.
Proof.
  intros Hwf Hfuel.
  destruct (checkDatabase_run env fuel w Hwf Hfuel) as (kept & out & al & Hrun & HS).
  eexists _, al. split; [exact Hrun|]. simpl. split; [done|]. split; [done|].
  intros k tracks Hk.
  pose proof (Sweep_kept_second _ _ _ _ _ _ _ k tracks HS (wf_NoDup _ Hwf) Hk) as Hk0.
  split; [done|].
  destruct Hwf as [_ Hok]. rewrite Forall_forall in Hok.
  pose proof (Hok _ (second_elem _ _ _ Hk0)) as Hen.
  split.
  - destruct Hen as [_ Hall]. eapply Forall_impl; [exact Hall|].
    intros r (t & Hr & _). simpl. rewrite Hr. by apply lookup_app_l_Some.
  - destruct (entry_ok_latest _ _ Hen) as (t & Ht & _). simpl in Ht.
    rewrite Ht. by apply latest_app.
Qed.

Lemma C10_witness :
  exists w' al,
    checkDatabase env42 2 world7 = Ok (tt, w')
    /\ epoch_ w' = epoch_ world7
    /\ heap w' = heap world7 ++ al
    /\ forall k tracks,
         Map.second (trackDatabase_ w') k = Some tracks ->
         Map.second (trackDatabase_ world7) k = Some tracks
         /\ Forall (fun r => heap w' !! r = heap world7 !! r) tracks
         /\ latest (heap w') tracks = latest (heap world7) tracks.
Proof.
  apply (C10_pass_frame env42 2 world7).
  - exact world7_wf.
  - simpl; lia.
Defined.

(** * Further properties of the algorithm *)

(** ** Facts they rest on *)

Section SweepMore.
Variables (env : Env) (h : list Track) (e : float).

Lemma Sweep_out_origin n m kept out :
  Sweep env h e n m kept out ->
  Forall (fun r => exists k tracks t,
            (k, tracks) ∈ m /\ latest h tracks = Some t
            /\ (r = report kDropping t
                \/ r = report kPromoted t /\ promotable env tracks t = true))
         out.
Proof.
  induction 1 as [|n k tracks t m kept out Ht HS IH]; [constructor|].
  apply Forall_app. split.
  - unfold reports_of. destruct (expired env e (Now env n) t).
    + repeat constructor. exists k, tracks, t. split; [left|]. auto.
    + destruct (promotable env tracks t) eqn:Hp; [|constructor].
      repeat constructor. exists k, tracks, t. split; [left|]. auto.
  - eapply Forall_impl; [exact IH|]. intros r (k' & tr' & t' & Hin & Hrest).
    exists k', tr', t'. split; [by right|done].
Qed.

Lemma Sweep_out_keys n m kept out :
  Sweep env h e n m kept out -> Forall (entry_ok h) m ->
  Forall (fun r => getTrackNumber r ∈ m.*1) out.
Proof.
  intros HS Hok. eapply Forall_impl; [exact (Sweep_out_origin _ _ _ _ HS)|].
  intros r (k & tracks & t & Hin & Ht & Hr). simpl.
  rewrite Forall_forall in Hok.
  destruct (entry_ok_latest _ _ (Hok _ Hin)) as (t' & Ht' & Hnum).
  simpl in Ht', Hnum. rewrite Ht in Ht'. injection Ht' as <-.
  assert (getTrackNumber r = k) as -> by (destruct Hr as [->|[-> _]]; done).
  apply list_elem_of_fmap. by exists (k, tracks).
Qed.

Lemma Sweep_out_ascending n m kept out :
  Sweep env h e n m kept out ->
  StronglySorted Z.lt m.*1 -> Forall (entry_ok h) m ->
  StronglySorted Z.lt (getTrackNumber <$> out).
Proof.
  induction 1 as [|n k tracks t m kept out Ht HS IH]; intros Hs Hok; [constructor|].
  csimpl in Hs. apply StronglySorted_inv in Hs as [Hs Hlt].
  apply Forall_cons in Hok as [Hok0 Hok].
  destruct (entry_ok_latest _ _ Hok0) as (t' & Ht' & Hnum).
  simpl in Ht', Hnum. rewrite Ht in Ht'. injection Ht' as <-.
  pose proof (Sweep_out_keys _ _ _ _ HS Hok) as Hkeys.
  assert (Hgt : Forall (Z.lt k) (getTrackNumber <$> out)).
  { rewrite Forall_fmap. eapply Forall_impl; [exact Hkeys|].
    intros r Hr. simpl. rewrite Forall_forall in Hlt. by apply Hlt. }
  specialize (IH Hs Hok).
  unfold reports_of. destruct (expired env e (Now env n) t).
  - csimpl. constructor; [done|]. by rewrite Hnum.
  - destruct (promotable env tracks t); [|done].
    csimpl. constructor; [done|]. by rewrite Hnum.
Qed.

Lemma Sweep_count n m kept out :
  Sweep env h e n m kept out ->
  length m = (length kept + length (droppings out))%nat.
Proof.
  induction 1 as [|n k tracks t m kept out Ht HS IH]; [done|].
  unfold droppings in *. rewrite filter_app, length_app. unfold reports_of.
  destruct (expired env e (Now env n) t).
  - rewrite filter_cons_True by done. simpl. lia.
  - destruct (promotable env tracks t).
    + rewrite filter_cons_False by done. simpl. lia.
    + simpl. lia.
Qed.

End SweepMore.

Lemma checkLoop_more_fuel env dl fuel : forall it w r fuel',
  checkLoop env dl fuel it w = Ok r -> (fuel <= fuel')%nat ->
  checkLoop env dl fuel' it w = Ok r.
Proof.
  induction fuel as [|fuel IH]; intros it w r fuel' Hrun Hle.
  - destruct it; [done|]. by destruct fuel'.
  - destruct it as [k|]; [|by destruct fuel'].
    destruct fuel' as [|fuel']; [lia|].
    simpl in Hrun |- *. unfold bind in Hrun |- *.
    destruct (checkEntry env dl k w) as [[it' w']| |]; [|done..].
    apply IH; [done|lia].
Qed.

Lemma Sweep_same_drops env env' h e n m kept out :
  Sweep env h e n m kept out ->
  forall kept' out',
    Sweep env' h e n m kept' out' ->
    dropLimit env = dropLimit env' -> (forall i, Now env i = Now env' i) ->
    kept = kept' /\ droppings out = droppings out'.
Proof.
  induction 1 as [|n k tracks t m kept out Ht HS IH];
    intros kept' out' HS' Hdl Hnow.
  - by inversion HS'.
  - inversion HS' as [|? ? ? t' ? kept1 out1 Ht' HS1]; subst.
    rewrite Ht in Ht'. injection Ht' as <-.
    destruct (IH _ _ HS1 Hdl Hnow) as [-> Hd].
    assert (Hexp : expired env' e (Now env' n) t = expired env e (Now env n) t).
    { unfold expired. by rewrite Hdl, Hnow. }
    rewrite Hexp. split; [done|].
    unfold droppings in *. rewrite !filter_app, Hd. f_equal.
    unfold reports_of. rewrite Hexp.
    destruct (expired env e (Now env n) t); [done|].
    destruct (promotable env tracks t), (promotable env' tracks t); try done;
      by rewrite ?filter_cons_False.
Qed.

Lemma perform_answer env c w :
  wf w -> exists w', perform env c w = Ok (answer env c, w') /\ wf w'.
Proof.
  intros Hwf. destruct (perform_wf env c w Hwf) as (b & w' & Hrun & Hwf').
  exists w'. split; [|done]. rewrite Hrun. do 2 f_equal.
  destruct c as [m| |].
  - destruct w as [h db e n s v]. rewrite deliver_run in Hrun.
    by destruct (accepted m); injection Hrun as <- _.
  - simpl in Hrun. unfold bind at 1 in Hrun.
    destruct (processAlarm env w) as [[[] w1]| |]; [|done..].
    by injection Hrun as <- _.
  - destruct w. by injection Hrun as <- _.
Qed.

Lemma find_second_None (m : list (Z * list nat)) k :
  Map.second m k = None -> Map.find m k = None.
Proof.
  induction m as [|[k0 v0] m IH]; simpl; [done|].
  by destruct (decide (k0 = k)).
Qed.

Lemma insert_length (m : list (Z * list nat)) k v :
  Map.find m k = None -> length (Map.insert m k v) = S (length m).
Proof.
  induction m as [|[k0 v0] m IH]; simpl; [done|].
  destruct (decide (k0 = k)); [done|]. intros Hf.
  destruct (decide (k < k0)); simpl; [done|]. by rewrite IH.
Qed.

Lemma push_back_length (m : list (Z * list nat)) k r :
  length (Map.push_back m k r) = length m.
Proof.
  induction m as [|[k0 v0] m IH]; simpl; [done|].
  destruct (decide (k0 = k)); simpl; [done|by rewrite IH].
Qed.

Lemma history_folded db k km msg :
  history (folded db km msg) k
  = history db k ++ (if bool_decide (km = k) then [msg] else []).
Proof.
  unfold history at 1. destruct (decide (km = k)) as [->|Hne].
  - rewrite second_folded, bool_decide_eq_true_2 by done. done.
  - rewrite second_folded_ne, bool_decide_eq_false_2 by done.
    fold (history db k). by rewrite app_nil_r.
Qed.







(** ** The properties *)

(** X1: whatever messages the hosting stage delivers, alarms it fires and
    restarts it orders, from the initial state on, every call returns: no
    iterator dangles, [back()] is never taken of an empty vector, no address
    is stale. [processInput] answers [true] for every message, and the
    database stays well formed. *)
Theorem run_never_undefined env cs :
  exists w, run env cs initial = Ok (answer env <$> cs, w) /\ wf w.
Proof.
  assert (H : forall w0, wf w0 ->
            exists w, run env cs w0 = Ok (answer env <$> cs, w) /\ wf w).
  { induction cs as [|c cs IH]; intros w0 Hwf; simpl.
    - by exists w0.
    - destruct (perform_answer env c w0 Hwf) as (w1 & Hrun & Hwf1).
      destruct (IH w1 Hwf1) as (w2 & Hrun2 & Hwf2).
      exists w2. split; [|done]. unfold bind. by rewrite Hrun, Hrun2. }
  apply H, initial_wf.
Qed.

(** X2: a message that [processInput] takes in becomes the latest message
    of its track, the one the next pass judges the track by; the entries of
    the other tracks, the messages themselves and what has been sent are left
    alone, and the clock is read once. *)
Theorem accepted_message_frame env w msg m :
  heap w !! msg = Some m ->
  getFlags m = kNew \/ getFlags m = kCorrected ->
  exists w',
    processInput env msg w = Ok (true, w')
    /\ latest (heap w') (history (trackDatabase_ w') (getTrackNumber m)) = Some m
    /\ (forall k, k <> getTrackNumber m ->
          Map.second (trackDatabase_ w') k = Map.second (trackDatabase_ w) k)
    /\ heap w' = heap w /\ sent w' = sent w /\ visited w' = visited w
    /\ ticks w' = S (ticks w).
Proof.
  intros Hm Hf. apply accepted_iff in Hf.
  destruct w as [h db e n s v]; simpl in *.
  rewrite (processInput_run _ _ m), Hf by done.
  eexists. split; [done|]. simpl. split.
  - unfold history at 1. rewrite second_folded. simpl.
    unfold latest. by rewrite last_snoc.
  - split; [|done]. intros k Hk. by apply second_folded_ne.
Qed.

Lemma accepted_message_frame_witness :
  exists w',
    processInput env42 0%nat world42 = Ok (true, w')
    /\ latest (heap w')
         (history (trackDatabase_ w') (getTrackNumber (plot 42 kNew 100)))
       = Some (plot 42 kNew 100)
    /\ (forall k, k <> getTrackNumber (plot 42 kNew 100) ->
          Map.second (trackDatabase_ w') k = Map.second (trackDatabase_ world42) k)
    /\ heap w' = heap world42 /\ sent w' = sent world42
    /\ visited w' = visited world42
    /\ ticks w' = S (ticks world42).
Proof.
  apply (accepted_message_frame env42 world42 0%nat (plot 42 kNew 100)).
  - reflexivity.
  - left. reflexivity.
Defined.

(** X3: for a track the database does not know, [updateDatabase] makes an
    entry that holds the one message, and the database has one entry more;
    for a known track the message is appended to its vector and the keys of
    the database stay what they were. *)
Theorem accepted_message_entry env w msg m :
  heap w !! msg = Some m ->
  getFlags m = kNew \/ getFlags m = kCorrected ->
  exists w',
    processInput env msg w = Ok (true, w')
    /\ match Map.second (trackDatabase_ w) (getTrackNumber m) with
       | None =>
           Map.second (trackDatabase_ w') (getTrackNumber m) = Some [msg]
           /\ length (trackDatabase_ w') = S (length (trackDatabase_ w))
       | Some tracks =>
           Map.second (trackDatabase_ w') (getTrackNumber m) = Some (tracks ++ [msg])
           /\ (trackDatabase_ w').*1 = (trackDatabase_ w).*1
       end.
Proof.
  intros Hm Hf. apply accepted_iff in Hf.
  destruct w as [h db e n s v]; simpl in *.
  rewrite (processInput_run _ _ m), Hf by done.
  eexists. split; [done|]. simpl.
  pose proof (second_folded db (getTrackNumber m) msg) as Hs.
  unfold history in Hs.
  destruct (Map.second db (getTrackNumber m)) as [tracks|] eqn:Hk; simpl in Hs.
  - split; [done|]. unfold folded. rewrite push_back_keys.
    destruct (Map.find db (getTrackNumber m)) eqn:Hfd; [done|].
    apply find_None in Hfd. congruence.
  - split; [done|]. unfold folded. rewrite push_back_length.
    rewrite (find_second_None _ _ Hk). by apply insert_length, find_second_None.
Qed.

Lemma accepted_message_entry_witness :
  exists w',
    processInput env42 0%nat world0 = Ok (true, w')
    /\ match Map.second (trackDatabase_ world0)
               (getTrackNumber (plot 7 kNew 50)) with
       | None =>
           Map.second (trackDatabase_ w') (getTrackNumber (plot 7 kNew 50))
           = Some [0%nat]
           /\ length (trackDatabase_ w') = S (length (trackDatabase_ world0))
       | Some tracks =>
           Map.second (trackDatabase_ w') (getTrackNumber (plot 7 kNew 50))
           = Some (tracks ++ [0%nat])
           /\ (trackDatabase_ w').*1 = (trackDatabase_ world0).*1
       end.
Proof.
  apply (accepted_message_entry env42 world0 0%nat (plot 7 kNew 50)).
  - reflexivity.
  - left. reflexivity.
Defined.

(** X4: the loop of [checkDatabase] ends: on a well-formed database it
    returns after as many turns as the database has entries, so the alarm
    handler returns, and more turns allowed change nothing. *)
Theorem pass_terminates env fuel w :
  wf w -> (length (trackDatabase_ w) <= fuel)%nat ->
  exists w',
    processAlarm env w = Ok (tt, w')
    /\ checkDatabase env fuel w = Ok (tt, w').
Proof.
  intros Hwf Hfuel.
  destruct (checkDatabase_run env (length (trackDatabase_ w)) w Hwf (le_n _))
    as (kept & out & al & Hrun & _).
  eexists. rewrite processAlarm_eq. split; [exact Hrun|].
  unfold checkDatabase, bind, get_db in Hrun |- *. simpl in Hrun |- *.
  eapply checkLoop_more_fuel; [exact Hrun|done].
Qed.

Lemma pass_terminates_witness :
  exists w',
    processAlarm env42 world7 = Ok (tt, w')
    /\ checkDatabase env42 9 world7 = Ok (tt, w').
Proof.
  apply (pass_terminates env42 9 world7).
  - exact world7_wf.
  - simpl; lia.
Defined.

(** X5: every report of a pass is produced under the name
    "TrackMaintainer", is flagged promoted or dropping, and otherwise copies
    the latest message of an entry the database held when the pass began:
    its track number, its state and its extraction time. *)
Theorem reports_are_copies env fuel w :
  wf w -> (length (trackDatabase_ w) <= fuel)%nat ->
  exists w' out,
    checkDatabase env fuel w = Ok (tt, w')
    /\ sent w' = sent w ++ out
    /\ Forall (fun r =>
         getProducer r = "TrackMaintainer"%string
         /\ (getFlags r = kPromoted \/ getFlags r = kDropping)
         /\ exists tracks t,
              Map.second (trackDatabase_ w) (getTrackNumber r) = Some tracks
              /\ latest (heap w) tracks = Some t
              /\ getTrackNumber r = getTrackNumber t
              /\ getType r = getType t
              /\ getExtractionTime r = getExtractionTime t) out.
Proof.
  intros Hwf Hfuel.
  destruct (checkDatabase_run env fuel w Hwf Hfuel) as (kept & out & al & Hrun & HS).
  eexists _, out. split; [exact Hrun|]. split; [done|].
  eapply Forall_impl; [exact (Sweep_out_origin _ _ _ _ _ _ _ HS)|].
  intros r (k & tracks & t & Hin & Ht & Hr). simpl.
  pose proof (wf_NoDup _ Hwf) as Hnd. destruct Hwf as [_ Hok].
  rewrite Forall_forall in Hok.
  destruct (entry_ok_latest _ _ (Hok _ Hin)) as (t' & Ht' & Hnum).
  simpl in Ht', Hnum. rewrite Ht in Ht'. injection Ht' as <-.
  apply list_elem_of_lookup_1 in Hin as [i Hi].
  pose proof (second_lookup _ _ _ _ Hnd Hi) as Hsec.
  destruct Hr as [->|[-> _]]; simpl; (split; [done|]); (split; [auto|]);
    exists tracks, t; rewrite Hnum; done.
Qed.

Lemma reports_are_copies_witness :
  exists w' out,
    checkDatabase env42 2 world7 = Ok (tt, w')
    /\ sent w' = sent world7 ++ out
    /\ Forall (fun r =>
         getProducer r = "TrackMaintainer"%string
         /\ (getFlags r = kPromoted \/ getFlags r = kDropping)
         /\ exists tracks t,
              Map.second (trackDatabase_ world7) (getTrackNumber r) = Some tracks
              /\ latest (heap world7) tracks = Some t
              /\ getTrackNumber r = getTrackNumber t
              /\ getType r = getType t
              /\ getExtractionTime r = getExtractionTime t) out.
Proof.
  apply (reports_are_copies env42 2 world7).
  - exact world7_wf.
  - simpl; lia.
Defined.

(** X6: the reports of a pass leave in ascending order of track number. *)
Theorem reports_in_key_order env fuel w :
  wf w -> (length (trackDatabase_ w) <= fuel)%nat ->
  exists w' out,
    checkDatabase env fuel w = Ok (tt, w')
    /\ sent w' = sent w ++ out
    /\ StronglySorted Z.lt (getTrackNumber <$> out).
Proof.
  intros Hwf Hfuel.
  destruct (checkDatabase_run env fuel w Hwf Hfuel) as (kept & out & al & Hrun & HS).
  eexists _, out. split; [exact Hrun|]. split; [done|].
  destruct Hwf as [Hs Hok]. by eapply Sweep_out_ascending.
Qed.

Lemma reports_in_key_order_witness :
  exists w' out,
    checkDatabase env42 2 world7 = Ok (tt, w')
    /\ sent w' = sent world7 ++ out
    /\ StronglySorted Z.lt (getTrackNumber <$> out).
Proof.
  apply (reports_in_key_order env42 2 world7).
  - exact world7_wf.
  - simpl; lia.
Defined.

(** X7: a pass erases exactly the entries it reports as dropping: the
    database shrinks by the number of dropping reports, and an entry is gone
    after the pass if and only if the dropping copy of its latest message was
    sent. *)
Theorem dropped_are_reported env fuel w :
  wf w -> (length (trackDatabase_ w) <= fuel)%nat ->
  exists w' out,
    checkDatabase env fuel w = Ok (tt, w')
    /\ sent w' = sent w ++ out
    /\ length (trackDatabase_ w)
       = (length (trackDatabase_ w') + length (droppings out))%nat
    /\ forall i k tracks t,
         trackDatabase_ w !! i = Some (k, tracks) ->
         latest (heap w) tracks = Some t ->
         (Map.second (trackDatabase_ w') k = None <-> report kDropping t ∈ out).
Proof.
  intros Hwf Hfuel.
  destruct (checkDatabase_run env fuel w Hwf Hfuel) as (kept & out & al & Hrun & HS).
  eexists _, out. split; [exact Hrun|]. split; [done|]. simpl.
  split; [by eapply Sweep_count|].
  intros i k tracks t Hi Ht.
  destruct (Sweep_at _ _ _ _ _ _ _ HS i k tracks t (wf_NoDup _ Hwf) (proj2 Hwf) Hi Ht)
    as [Hout Hkept].
  assert (Hnum : getTrackNumber t = k).
  { destruct Hwf as [_ Hok]. rewrite Forall_forall in Hok.
    destruct (entry_ok_latest _ _ (Hok _ (list_elem_of_lookup_2 _ _ _ Hi)))
      as (t' & Ht' & Hnum). simpl in Ht', Hnum. congruence. }
  assert (Hmem : report kDropping t ∈ out <-> report kDropping t ∈ reports_for k out).
  { unfold reports_for. rewrite list_elem_of_filter. simpl.
    split; [by intros Hin|by intros [_ Hin]]. }
  rewrite Hmem, Hout, Hkept. unfold reports_of.
  destruct (expired _ _ _ _).
  - split; [intros _; left|done].
  - split; [done|]. destruct (promotable _ _ _).
    + rewrite list_elem_of_singleton. discriminate.
    + by rewrite elem_of_nil.
Qed.

Lemma dropped_are_reported_witness :
  exists w' out,
    checkDatabase env42 2 world7 = Ok (tt, w')
    /\ sent w' = sent world7 ++ out
    /\ length (trackDatabase_ world7)
       = (length (trackDatabase_ w') + length (droppings out))%nat
    /\ forall i k tracks t,
         trackDatabase_ world7 !! i = Some (k, tracks) ->
         latest (heap world7) tracks = Some t ->
         (Map.second (trackDatabase_ w') k = None <-> report kDropping t ∈ out).
Proof.
  apply (dropped_are_reported env42 2 world7).
  - exact world7_wf.
  - simpl; lia.
Defined.

(** X8: an entry whose latest message is confirmed, or whose vector is
    shorter than the threshold, and which is not overdue, gets no report and
    stays in the database as it was. *)
Theorem quiet_entry env fuel w i k tracks t :
  wf w -> (length (trackDatabase_ w) <= fuel)%nat ->
  trackDatabase_ w !! i = Some (k, tracks) ->
  latest (heap w) tracks = Some t ->
  getType t = kConfirmed
  \/ Z.of_nat (length tracks) < to_size_t (hitsBeforePromote_ env) ->
  expired env (epoch_ w) (Now env (ticks w + i)) t = false ->
  exists w' out,
    checkDatabase env fuel w = Ok (tt, w')
    /\ sent w' = sent w ++ out
    /\ reports_for k out = []
    /\ Map.second (trackDatabase_ w') k = Some tracks.
Proof.
  intros Hwf Hfuel Hi Ht Hq Hexp.
  destruct (checkDatabase_run env fuel w Hwf Hfuel) as (kept & out & al & Hrun & HS).
  eexists _, out. split; [exact Hrun|]. split; [done|]. simpl.
  destruct (Sweep_at _ _ _ _ _ _ _ HS i k tracks t (wf_NoDup _ Hwf) (proj2 Hwf) Hi Ht)
    as [-> ->].
  unfold reports_of. rewrite Hexp.
  assert (promotable env tracks t = false) as ->; [|done].
  unfold promotable. apply andb_false_iff.
  destruct Hq as [Hc|Hlt]; [left|right]; apply bool_decide_eq_false_2.
  - congruence.
  - lia.
Qed.

Lemma quiet_entry_witness :
  exists w' out,
    checkDatabase env5 2 world7 = Ok (tt, w')
    /\ sent w' = sent world7 ++ out
    /\ reports_for 42 out = []
    /\ Map.second (trackDatabase_ w') 42 = Some [1; 2; 3]%nat.
Proof.
  apply (quiet_entry env5 2 world7 1 42 [1; 2; 3]%nat (plot 42 kCorrected 100)).
  - exact world7_wf.
  - simpl; lia.
  - reflexivity.
  - reflexivity.
  - right. reflexivity.
  - reflexivity.
Defined.

(** X9: a report flagged promoted still says tentative, and the only reports
    that say confirmed are dropping reports: no pass announces the promotion
    of a confirmed track. *)
Theorem promoted_reports_say_tentative env fuel w :
  wf w -> (length (trackDatabase_ w) <= fuel)%nat ->
  exists w' out,
    checkDatabase env fuel w = Ok (tt, w')
    /\ sent w' = sent w ++ out
    /\ Forall (fun r => getFlags r = kPromoted -> getType r = kTentative) out
    /\ Forall (fun r => getType r = kConfirmed -> getFlags r = kDropping) out.
Proof.
  intros Hwf Hfuel.
  destruct (checkDatabase_run env fuel w Hwf Hfuel) as (kept & out & al & Hrun & HS).
  eexists _, out. split; [exact Hrun|]. split; [done|].
  pose proof (Sweep_out_origin _ _ _ _ _ _ _ HS) as Ho.
  assert (Hp : forall tracks t, promotable env tracks t = true -> getType t = kTentative).
  { intros tracks t. unfold promotable. rewrite andb_true_iff, bool_decide_eq_true.
    by intros [? _]. }
  split; (eapply Forall_impl; [exact Ho|]);
    intros r (k & tracks & t & _ & _ & [->|[-> Hpr]]); simpl; try done.
  - intros _. by eapply Hp.
  - intros Hc. apply Hp in Hpr. congruence.
Qed.

Lemma promoted_reports_say_tentative_witness :
  exists w' out,
    checkDatabase env42 2 world7 = Ok (tt, w')
    /\ sent w' = sent world7 ++ out
    /\ Forall (fun r => getFlags r = kPromoted -> getType r = kTentative) out
    /\ Forall (fun r => getType r = kConfirmed -> getFlags r = kDropping) out.
Proof.
  apply (promoted_reports_say_tentative env42 2 world7).
  - exact world7_wf.
  - simpl; lia.
Defined.

(** X10: a pass keeps the database well formed; what it leaves is what it
    found with some entries taken out, none added and none moved; and it
    reads the clock once for every entry it found. *)
Theorem pass_keeps_database_sound env fuel w :
  wf w -> (length (trackDatabase_ w) <= fuel)%nat ->
  exists w',
    checkDatabase env fuel w = Ok (tt, w')
    /\ wf w'
    /\ sublist (trackDatabase_ w') (trackDatabase_ w)
    /\ ticks w' = (ticks w + length (trackDatabase_ w))%nat.
Proof.
  intros Hwf Hfuel.
  destruct (checkDatabase_run env fuel w Hwf Hfuel) as (kept & out & al & Hrun & HS).
  eexists. split; [exact Hrun|]. split; [destruct w; by eapply Sweep_wf|].
  split; [by eapply Sweep_sublist|done].
Qed.

Lemma pass_keeps_database_sound_witness :
  exists w',
    checkDatabase env42 2 world7 = Ok (tt, w')
    /\ wf w'
    /\ sublist (trackDatabase_ w') (trackDatabase_ world7)
    /\ ticks w' = (ticks world7 + length (trackDatabase_ world7))%nat.
Proof.
  apply (pass_keeps_database_sound env42 2 world7).
  - exact world7_wf.
  - simpl; lia.
Defined.

(** X11: after [reset], and just so after [shutdown], an alarm sends
    nothing and reads no clock, and the next message taken in starts the
    history of its track anew, whatever the database held for that track
    before. *)
Theorem restart_forgets env b h db e n s v msg m :
  h !! msg = Some m ->
  getFlags m = kNew \/ getFlags m = kCorrected ->
  (reset env ;; processAlarm env) (mkWorld h db e n s v)
    = Ok (tt, mkWorld h [] e n s v)
  /\ (shutdown b ;; processAlarm env) (mkWorld h db e n s v)
    = Ok (tt, mkWorld h [] e n s v)
  /\ (reset env ;; processInput env msg) (mkWorld h db e n s v)
    = Ok (true, mkWorld h [(getTrackNumber m, [msg])]
                        (Now env n - getExtractionTime m)%float (S n) s v)
  /\ (shutdown b ;; processInput env msg) (mkWorld h db e n s v)
    = Ok (true, mkWorld h [(getTrackNumber m, [msg])]
                        (Now env n - getExtractionTime m)%float (S n) s v).
Proof.
  intros Hm Hf. apply accepted_iff in Hf.
  split; [reflexivity|]. split; [reflexivity|].
  split; unfold bind, reset, shutdown, set_db, ret; simpl;
    rewrite (processInput_run _ _ m), Hf by done; unfold folded; simpl;
    by rewrite decide_True.
Qed.

Lemma restart_forgets_witness :
  (reset env42 ;; processAlarm env42)
    (mkWorld (heap world42) (trackDatabase_ world42) 0%float 3 [] [])
    = Ok (tt, mkWorld (heap world42) [] 0%float 3 [] [])
  /\ (shutdown true ;; processAlarm env42)
    (mkWorld (heap world42) (trackDatabase_ world42) 0%float 3 [] [])
    = Ok (tt, mkWorld (heap world42) [] 0%float 3 [] [])
  /\ (reset env42 ;; processInput env42 0%nat)
    (mkWorld (heap world42) (trackDatabase_ world42) 0%float 3 [] [])
    = Ok (true, mkWorld (heap world42)
                        [(getTrackNumber (plot 42 kNew 100), [0%nat])]
                        (Now env42 3 - getExtractionTime (plot 42 kNew 100))%float
                        4 [] [])
  /\ (shutdown true ;; processInput env42 0%nat)
    (mkWorld (heap world42) (trackDatabase_ world42) 0%float 3 [] [])
    = Ok (true, mkWorld (heap world42)
                        [(getTrackNumber (plot 42 kNew 100), [0%nat])]
                        (Now env42 3 - getExtractionTime (plot 42 kNew 100))%float
                        4 [] []).
Proof.
  apply (restart_forgets env42 true (heap world42) (trackDatabase_ world42)
           0%float 3 [] [] 0%nat (plot 42 kNew 100)).
  - reflexivity.
  - left. reflexivity.
Defined.

(** X12: the algorithm does not listen to itself: a report of a pass, handed
    to [processInput], is answered [true] and changes nothing. *)
Theorem own_reports_are_ignored env fuel w :
  wf w -> (length (trackDatabase_ w) <= fuel)%nat ->
  exists w' out,
    checkDatabase env fuel w = Ok (tt, w')
    /\ sent w' = sent w ++ out
    /\ forall r, r ∈ out ->
         forall env' w0 msg, heap w0 !! msg = Some r ->
           processInput env' msg w0 = Ok (true, w0).
Proof.
  intros Hwf Hfuel.
  destruct (checkDatabase_run env fuel w Hwf Hfuel) as (kept & out & al & Hrun & HS).
  eexists _, out. split; [exact Hrun|]. split; [done|].
  pose proof (Sweep_out_origin _ _ _ _ _ _ _ HS) as Ho.
  rewrite Forall_forall in Ho.
  intros r Hr env' w0 msg Hmsg.
  destruct w0 as [h0 db0 e0 n0 s0 v0]. simpl in Hmsg.
  rewrite (processInput_run _ _ r) by done.
  by destruct (Ho r Hr) as (k & tracks & t & _ & _ & [->|[-> _]]).
Qed.

Lemma own_reports_are_ignored_witness :
  exists w' out,
    checkDatabase env42 2 world7 = Ok (tt, w')
    /\ sent w' = sent world7 ++ out
    /\ forall r, r ∈ out ->
         forall env' w0 msg, heap w0 !! msg = Some r ->
           processInput env' msg w0 = Ok (true, w0).
Proof.
  apply (own_reports_are_ignored env42 2 world7).
  - exact world7_wf.
  - simpl; lia.
Defined.



(** X14: which tracks a pass drops, and which dropping reports it sends,
    does not depend on the promotion threshold. *)
Theorem threshold_does_not_affect_dropping env env' fuel w :
  wf w -> (length (trackDatabase_ w) <= fuel)%nat ->
  missesBeforeDrop_ env = missesBeforeDrop_ env' ->
  GetRotationDuration env = GetRotationDuration env' ->
  (forall i, Now env i = Now env' i) ->
  exists w1 w2 out1 out2,
    checkDatabase env fuel w = Ok (tt, w1)
    /\ checkDatabase env' fuel w = Ok (tt, w2)
    /\ sent w1 = sent w ++ out1 /\ sent w2 = sent w ++ out2
    /\ trackDatabase_ w1 = trackDatabase_ w2
    /\ droppings out1 = droppings out2.
Proof.
  intros Hwf Hfuel Hm Hr Hnow.
  destruct (checkDatabase_run env fuel w Hwf Hfuel) as (kept & out & al & Hrun & HS).
  destruct (checkDatabase_run env' fuel w Hwf Hfuel) as (kept' & out' & al' & Hrun' & HS').
  destruct (Sweep_same_drops _ _ _ _ _ _ _ _ HS _ _ HS') as [Hk Hd].
  { unfold dropLimit. by rewrite Hm, Hr. }
  { done. }
  eexists _, _, out, out'. split; [exact Hrun|]. split; [exact Hrun'|]. by simpl.
Qed.

Lemma threshold_does_not_affect_dropping_witness :
  exists w1 w2 out1 out2,
    checkDatabase env42 2 world7 = Ok (tt, w1)
    /\ checkDatabase env1 2 world7 = Ok (tt, w2)
    /\ sent w1 = sent world7 ++ out1 /\ sent w2 = sent world7 ++ out2
    /\ trackDatabase_ w1 = trackDatabase_ w2
    /\ droppings out1 = droppings out2.
Proof.
  apply (threshold_does_not_affect_dropping env42 env1 2 world7).
  - exact world7_wf.
  - simpl; lia.
  - reflexivity.
  - reflexivity.
  - intros i. reflexivity.
Defined.

(** X15: the history of a track is the messages taken in for it, in the
    order they were delivered: delivering the messages [ms] appends to the
    history of each track [k] the addresses of those of [ms] that are flagged
    new or corrected and numbered [k], and nothing else. *)
Theorem histories_keep_arrival_order env ms : forall w,
  exists w',
    run env (Deliver <$> ms) w = Ok (answer env <$> (Deliver <$> ms), w')
    /\ heap w' = heap w ++ ms
    /\ forall k,
         history (trackDatabase_ w') k
         = history (trackDatabase_ w) k ++ arrivals k (length (heap w)) ms.
Proof.
  induction ms as [|m ms IH]; intros w.
  - exists w. split; [done|]. split; [by rewrite app_nil_r|].
    intros k. simpl. by rewrite app_nil_r.
  - destruct w as [h db e n s v]. rewrite !fmap_cons. cbn [run answer].
    unfold bind. rewrite deliver_run.
    destruct (accepted m) eqn:Hacc.
    + destruct (IH (mkWorld (h ++ [m]) (folded db (getTrackNumber m) (length h))
                     (Now env n - getExtractionTime m)%float (S n) s v))
        as (w' & Hrun & Hheap & Hhist).
      exists w'. rewrite Hrun. split; [done|]. simpl in *.
      split; [by rewrite Hheap, <- app_assoc|].
      intros k. rewrite Hhist, history_folded, length_app, <- app_assoc. simpl.
      by rewrite Nat.add_1_r, Hacc.
    + destruct (IH (mkWorld (h ++ [m]) db e n s v)) as (w' & Hrun & Hheap & Hhist).
      exists w'. rewrite Hrun. split; [done|]. simpl in *.
      split; [by rewrite Hheap, <- app_assoc|].
      intros k. rewrite Hhist, length_app. simpl. by rewrite Nat.add_1_r, Hacc.
Qed.
